(** * Student controller (src/controllers/etudiantController.js)

    A shallow embedding of the request handlers of the student REST
    controller, and proofs of the properties stated for them.

    Layout:
    - [JS]: the fragment of the JavaScript runtime the handlers rely on
      (truthiness of query parameters, [new RegExp(_, 'i')], [parseInt],
      [parseFloat], property assignment on a plain object);
    - [Mongo]: the query objects the handlers build, the calls they make to
      the persistence collaborator, and an in-memory store answering them;
    - the handlers themselves, written in a small monad for
      [async]/[await]/[try]/[catch];
    - the theorems.

    Strings are sequences of code units below 256 (Latin-1); the message
    literals are kept byte for byte as they stand in the source file.
    Numbers are the NaN, the two infinities and the rationals a binary64
    holds; the negative zero is not told from zero.  [console.log] calls
    are left out. *)

From Stdlib Require Import ZArith QArith Ascii String List Bool Lia.
From Stdlib Require Import Permutation Sorted Btauto.
From stdpp Require Import base option list gmap strings.

Import ListNotations.
Local Open Scope list_scope.

(* ===================================================================== *)
(** * The JavaScript runtime fragment *)
(* ===================================================================== *)

Module JS.

(** ** Values that may be [undefined] *)

(** A query parameter, a route parameter or a body field of string type is
    [None] when it is [undefined] and [Some s] when it is the string [s]. *)
Definition truthy (v : option string) : bool :=
  match v with
  | None => false
  | Some s => negb (String.eqb s "")
  end.

(** Truthiness of a value that is [null] or an object. *)
Definition truthy_obj {A : Type} (v : option A) : bool :=
  match v with
  | None => false
  | Some _ => true
  end.

(** ** Numbers *)

Inductive number : Type :=
| NaN
| NegInfinity
| Num (q : Q)
| Infinity.

(** [a <= b] on numbers; every comparison with NaN is false. *)
Definition num_leb (a b : number) : bool :=
  match a, b with
  | NaN, _ | _, NaN => false
  | NegInfinity, _ => true
  | _, Infinity => true
  | Num x, Num y => Qle_bool x y
  | _, _ => false
  end.

Definition isNaN (a : number) : bool :=
  match a with NaN => true | _ => false end.

(** ** Characters *)

Definition code (c : ascii) : N := N_of_ascii c.

(** StrWhiteSpaceChar, below 256: TAB, LF, VT, FF, CR, SP, NBSP. *)
Definition is_white (c : ascii) : bool :=
  let n := code c in
  ((9 <=? n) && (n <=? 13) || (n =? 32) || (n =? 160))%N.

Fixpoint skip_white (cs : list ascii) : list ascii :=
  match cs with
  | c :: rest => if is_white c then skip_white rest else cs
  | [] => []
  end.

(** The value of a digit in the given radix, if it is one. *)
Definition digit_value (radix : N) (c : ascii) : option N :=
  let n := code c in
  let v := (if (48 <=? n) && (n <=? 57) then Some (n - 48)
            else if (97 <=? n) && (n <=? 122) then Some (n - 87)
            else if (65 <=? n) && (n <=? 90) then Some (n - 55)
            else None)%N in
  match v with
  | Some d => if (d <? radix)%N then Some d else None
  | None => None
  end.

(** The longest prefix of digits, most significant first, and what follows. *)
Fixpoint span_digits (radix : N) (cs : list ascii) : list N * list ascii :=
  match cs with
  | c :: rest =>
      match digit_value radix c with
      | Some d => let '(ds, tl) := span_digits radix rest in (d :: ds, tl)
      | None => ([], cs)
      end
  | [] => ([], [])
  end.

Definition digits_value (radix : N) (ds : list N) : Z :=
  Z.of_N (fold_left (fun acc d => acc * radix + d)%N ds 0%N).

Definition strip_sign (cs : list ascii) : bool * list ascii :=
  match cs with
  | "-"%char :: rest => (true, rest)
  | "+"%char :: rest => (false, rest)
  | _ => (false, cs)
  end.

(** ** Rounding to binary64 *)

(** [a / b] rounded to the nearest integer, ties to even ([0 <= a],
    [0 < b]). *)
Definition round_half_even (a b : Z) : Z :=
  let fl := (a / b)%Z in
  match (2 * (a mod b) ?= b)%Z with
  | Lt => fl
  | Gt => (fl + 1)%Z
  | Eq => if Z.even fl then fl else (fl + 1)%Z
  end.

(** [2^e <= n / d] ([0 < n], [0 < d]). *)
Definition at_least_pow2 (n d e : Z) : bool :=
  if (0 <=? e)%Z then (d * 2 ^ e <=? n)%Z else (d <=? n * 2 ^ (- e))%Z.

(** The integer part of the base-2 logarithm of [n / d]. *)
Definition floor_log2 (n d : Z) : Z :=
  let e := (Z.log2 n - Z.log2 d)%Z in
  if at_least_pow2 n d e then e else (e - 1)%Z.

(** The Number value for the positive rational [n / d]: the nearest
    binary64, ties to even; fifty-three bits of mantissa above [2^-1022],
    the multiples of [2^-1074] below, [Infinity] from [2^1024] on.  Every
    digit of the input counts, as in V8; the standard lets an engine stop
    at the twentieth. *)
Definition number_value (n d : Z) : number :=
  let ex := Z.max (floor_log2 n d - 52) (-1074) in
  if (0 <=? ex)%Z then
    let v := (round_half_even n (d * 2 ^ ex) * 2 ^ ex)%Z in
    if (2 ^ 1024 <=? v)%Z then Infinity else Num (inject_Z v)
  else
    Num (Qred (Qmake (round_half_even (n * 2 ^ (- ex)) d)
                     (Z.to_pos (2 ^ (- ex))))).

Definition negate (a : number) : number :=
  match a with
  | NaN => NaN
  | NegInfinity => Infinity
  | Num q => Num (Qred (Qopp q))
  | Infinity => NegInfinity
  end.

(** The Number value for a rational that is not negative, with a sign. *)
Definition to_number (neg : bool) (q : Q) : number :=
  let v := if (Qnum q =? 0)%Z then Num 0
           else number_value (Qnum q) (Zpos (Qden q)) in
  if neg then negate v else v.

(** ** [parseInt(string)], radix left undefined *)
Definition parseInt_chars (cs : list ascii) : number :=
  let '(neg, cs1) := strip_sign (skip_white cs) in
  let '(radix, cs2) :=
    match cs1 with
    | "0"%char :: "x"%char :: rest => (16%N, rest)
    | "0"%char :: "X"%char :: rest => (16%N, rest)
    | _ => (10%N, cs1)
    end in
  match span_digits radix cs2 with
  | ([], _) => NaN
  | (ds, _) => to_number neg (inject_Z (digits_value radix ds))
  end.

Definition parseInt (s : string) : number :=
  parseInt_chars (list_ascii_of_string s).

(** ** [parseFloat(string)] *)

(** The exponent part [e[+-]digits], taken only when digits follow. *)
Definition exponent_part (cs : list ascii) : Z :=
  match cs with
  | c :: rest =>
      if (Ascii.eqb c "e" || Ascii.eqb c "E")%bool then
        let '(neg, rest1) := strip_sign rest in
        match span_digits 10 rest1 with
        | ([], _) => 0%Z
        | (ds, _) => if neg then (- digits_value 10 ds)%Z else digits_value 10 ds
        end
      else 0%Z
  | [] => 0%Z
  end.

Definition infinity_chars : list ascii := list_ascii_of_string "Infinity".

Fixpoint starts_with (p cs : list ascii) : bool :=
  match p, cs with
  | [], _ => true
  | x :: p', y :: cs' => Ascii.eqb x y && starts_with p' cs'
  | _ :: _, [] => false
  end.

Definition parseFloat_chars (cs : list ascii) : number :=
  let '(neg, cs1) := strip_sign (skip_white cs) in
  if starts_with infinity_chars cs1 then
    (if neg then NegInfinity else Infinity)
  else
    let '(ip, cs2) := span_digits 10 cs1 in
    let '(fp, cs3) :=
      match cs2 with
      | "."%char :: rest => span_digits 10 rest
      | _ => ([], cs2)
      end in
    match ip ++ fp with
    | [] => NaN
    | ds =>
        let e := (exponent_part cs3 - Z.of_nat (length fp))%Z in
        to_number neg (Qmult (inject_Z (digits_value 10 ds))
                             (Qpower (inject_Z 10) e))
    end.

Definition parseFloat (s : string) : number :=
  parseFloat_chars (list_ascii_of_string s).

(** ** Plain objects used as maps *)

(** [o[k] = v] on a plain object holding primitive values: the key
    [__proto__] names the prototype accessor, and assigning a primitive to
    it leaves the object without a new own property. *)
Definition set_property {V : Type} (k : string) (v : V)
    (o : gmap string V) : gmap string V :=
  if String.eqb k "__proto__" then o else <[k := v]> o.

End JS.

(* ===================================================================== *)
(** * Regular expressions: [new RegExp(pattern, 'i')] and matching *)
(* ===================================================================== *)

(** A fragment of the pattern language is parsed and matched here:
    ordinary characters, [.], the anchors [^] and [$], an escaped syntax
    character, alternation [|], groups [( )] and [(?: )], and the
    quantifiers [*], [+], [?] with an optional lazy mark, under no flag or
    the flag [i].  What a pattern beyond the fragment does (character
    classes, braces, class escapes, back references, look-around, named
    groups, other flags) is left to a parameter, the [Engine]: whether
    [new RegExp] throws on it, and what the expression matches. *)

Module RegExp.

Inductive regex : Type :=
| Eps
| Chr (c : ascii)
| Any
| Bol
| Eol
| Seq (r1 r2 : regex)
| Alt (r1 r2 : regex)
| Star (r : regex).

Definition Plus (r : regex) : regex := Seq r (Star r).
Definition Opt (r : regex) : regex := Alt r Eps.

(** An expression: the pattern and flags it was built from, and its
    parsed form when the pattern lies in the fragment. *)
Record regexp : Type := mkRegExp {
  source : string;
  flags : string;
  ast : option regex
}.

(** The flag [i], for an expression of the fragment. *)
Definition ignoreCase (re : regexp) : bool := String.eqb (flags re) "i".

(** Beyond the fragment.  [beyond_error pattern flags] is the reason of
    the SyntaxError [new RegExp(pattern, flags)] throws, when it throws;
    [beyond_test pattern flags s] tells whether the expression it builds
    otherwise matches somewhere in [s]. *)
Class Engine : Type := {
  beyond_error : string -> string -> option string;
  beyond_test : string -> string -> string -> bool
}.

Inductive compiled : Type :=
| Compiled (r : regex)
| SyntaxError (reason : string)
| Outside.

(** ** Parsing *)

Inductive token : Type :=
| TLParen | TRParen | TBar | TStar | TPlus | TQuest | TDot | TCaret
| TDollar | TBackslash | TLBracket | TLBrace | TChar.

Definition classify (c : ascii) : token :=
  match c with
  | "("%char => TLParen
  | ")"%char => TRParen
  | "|"%char => TBar
  | "*"%char => TStar
  | "+"%char => TPlus
  | "?"%char => TQuest
  | "."%char => TDot
  | "^"%char => TCaret
  | "$"%char => TDollar
  | "\"%char => TBackslash
  | "["%char => TLBracket
  | "{"%char => TLBrace
  | _ => TChar
  end.

(** SyntaxCharacter, and [/]: the characters an identity escape may name. *)
Definition syntax_char (c : ascii) : bool :=
  match c with
  | "^"%char | "$"%char | "\"%char | "."%char | "*"%char | "+"%char
  | "?"%char | "("%char | ")"%char | "["%char | "]"%char | "{"%char
  | "}"%char | "|"%char | "/"%char => true
  | _ => false
  end.

(** What the last term of the alternative being read is. *)
Inductive last_term : Type :=
| NoAtom       (* nothing yet, an assertion, or a quantifier already lazy *)
| Atom         (* an atom: a quantifier may follow *)
| Quantified.  (* a quantified atom: only a lazy mark may follow *)

(** A group being read: the alternatives already closed and the terms of
    the current one, both most recent first. *)
Record frame : Type := mkFrame {
  alts : list regex;
  terms : list regex;
  last : last_term
}.

Definition empty_frame : frame := mkFrame [] [] NoAtom.

Definition seq_of (ts : list regex) : regex :=
  fold_left (fun acc t => Seq t acc) ts Eps.

Definition close (f : frame) : regex :=
  fold_left (fun acc a => Alt a acc) (alts f) (seq_of (terms f)).

Definition push_atom (r : regex) (f : frame) : frame :=
  mkFrame (alts f) (r :: terms f) Atom.

Definition push_assertion (r : regex) (f : frame) : frame :=
  mkFrame (alts f) (r :: terms f) NoAtom.

Definition next_alternative (f : frame) : frame :=
  mkFrame (seq_of (terms f) :: alts f) [] NoAtom.

(** Apply a quantifier to the last term. *)
Definition quantify (q : regex -> regex) (f : frame) : frame :=
  match terms f with
  | t :: ts => mkFrame (alts f) (q t :: ts) Quantified
  | [] => f
  end.

Definition set_last (l : last_term) (f : frame) : frame :=
  mkFrame (alts f) (terms f) l.

Fixpoint parse (cs : list ascii) (cur : frame) (stack : list frame)
  : compiled :=
  match cs with
  | [] =>
      match stack with
      | [] => Compiled (close cur)
      | _ :: _ => SyntaxError "Unterminated group"
      end
  | c :: rest =>
      match classify c with
      | TLParen =>
          match rest with
          | "?"%char :: ":"%char :: rest' =>
              parse rest' empty_frame (cur :: stack)
          | "?"%char :: _ => Outside
          | _ => parse rest empty_frame (cur :: stack)
          end
      | TRParen =>
          match stack with
          | parent :: stack' =>
              parse rest (push_atom (close cur) parent) stack'
          | [] => SyntaxError "Unmatched ')'"
          end
      | TBar => parse rest (next_alternative cur) stack
      | TStar =>
          match last cur with
          | Atom => parse rest (quantify Star cur) stack
          | _ => SyntaxError "Nothing to repeat"
          end
      | TPlus =>
          match last cur with
          | Atom => parse rest (quantify Plus cur) stack
          | _ => SyntaxError "Nothing to repeat"
          end
      | TQuest =>
          match last cur with
          | Atom => parse rest (quantify Opt cur) stack
          | Quantified => parse rest (set_last NoAtom cur) stack
          | NoAtom => SyntaxError "Nothing to repeat"
          end
      | TDot => parse rest (push_atom Any cur) stack
      | TCaret => parse rest (push_assertion Bol cur) stack
      | TDollar => parse rest (push_assertion Eol cur) stack
      | TBackslash =>
          match rest with
          | e :: rest' =>
              if syntax_char e then parse rest' (push_atom (Chr e) cur) stack
              else Outside
          | [] => SyntaxError "\ at end of pattern"
          end
      | TLBracket | TLBrace => Outside
      | TChar => parse rest (push_atom (Chr c) cur) stack
      end
  end.

Definition compile (pattern : string) : compiled :=
  parse (list_ascii_of_string pattern) empty_frame [].

(** ** Matching *)

(** Canonicalize, for code units below 256 without the unicode flag: the
    upper-case mapping when it is a single code unit of the same range. *)
Definition canonicalize (c : ascii) : ascii :=
  let n := JS.code c in
  if ((97 <=? n) && (n <=? 122))%N then ascii_of_N (n - 32)
  else if ((224 <=? n) && (n <=? 254) && negb (n =? 247))%N
       then ascii_of_N (n - 32)
  else c.

Definition same_char (ic : bool) (a b : ascii) : bool :=
  if ic then Ascii.eqb (canonicalize a) (canonicalize b) else Ascii.eqb a b.

(** LineTerminator below 256: LF and CR. *)
Definition line_terminator (c : ascii) : bool :=
  ((JS.code c =? 10) || (JS.code c =? 13))%N.

(** A position in the input: its index and the characters from there on. *)
Definition pos : Type := nat * list ascii.

Definition advanced (p q : pos) : bool := (fst p <? fst q)%nat.

(** Zero or more iterations of [step]; an iteration that consumes nothing
    is dropped, so the characters left bound the number of iterations. *)
Fixpoint star (step : pos -> list pos) (fuel : nat) (p : pos) : list pos :=
  p :: match fuel with
       | O => []
       | S n => flat_map (star step n) (List.filter (advanced p) (step p))
       end.

(** The positions at which a match of [r] started at [p] may end. *)
Fixpoint ends (ic : bool) (r : regex) (p : pos) : list pos :=
  match r with
  | Eps => [p]
  | Chr c =>
      match snd p with
      | x :: rest => if same_char ic x c then [(S (fst p), rest)] else []
      | [] => []
      end
  | Any =>
      match snd p with
      | x :: rest => if line_terminator x then [] else [(S (fst p), rest)]
      | [] => []
      end
  | Bol => if (fst p =? 0)%nat then [p] else []
  | Eol => match snd p with [] => [p] | _ :: _ => [] end
  | Seq r1 r2 => flat_map (ends ic r2) (ends ic r1 p)
  | Alt r1 r2 => ends ic r1 p ++ ends ic r2 p
  | Star r' => star (ends ic r') (length (snd p)) p
  end.

Definition matches_at (ic : bool) (r : regex) (p : pos) : bool :=
  match ends ic r p with
  | [] => false
  | _ :: _ => true
  end.

(** Every position of the input, the end included. *)
Fixpoint positions_from (i : nat) (cs : list ascii) : list pos :=
  (i, cs) :: match cs with
             | [] => []
             | _ :: rest => positions_from (S i) rest
             end.

Definition search (ic : bool) (r : regex) (cs : list ascii) : bool :=
  existsb (matches_at ic r) (positions_from 0 cs).

(** [regexp.test(s)] with [lastIndex] 0: is there a match anywhere in [s]. *)
Definition test `{Engine} (re : regexp) (s : string) : bool :=
  match ast re with
  | Some r => search (ignoreCase re) r (list_ascii_of_string s)
  | None => beyond_test (source re) (flags re) s
  end.

(** ** Construction *)

(** What [new RegExp] ends with: an expression, or a SyntaxError with its
    reason. *)
Inductive constructed : Type :=
| Built (re : regexp)
| Failed (reason : string).

Definition beyond `{Engine} (pattern flags : string) : constructed :=
  match beyond_error pattern flags with
  | Some reason => Failed reason
  | None => Built (mkRegExp pattern flags None)
  end.

(** [new RegExp(pattern, flags)]; an [undefined] pattern is the empty
    pattern. *)
Definition construct `{Engine} (pattern : option string) (flags : string)
  : constructed :=
  let src := default "" pattern in
  if String.eqb flags "" || String.eqb flags "i" then
    match compile src with
    | Compiled r => Built (mkRegExp src flags (Some r))
    | SyntaxError reason => Failed reason
    | Outside => beyond src flags
    end
  else beyond src flags.

End RegExp.

(* ===================================================================== *)
(** * Errors, promises and the handler monad *)
(* ===================================================================== *)

(** The [code] property of an error object. *)
Inductive errcode : Type :=
| NoCode
| NumCode (n : Z)
| StrCode (s : string).

Record error : Type := mkError {
  code : errcode;
  message : string
}.

(** [error.code === n] *)
Definition code_is (n : Z) (e : error) : bool :=
  match code e with
  | NumCode m => (m =? n)%Z
  | _ => false
  end.

(** How a promise settles. *)
Inductive outcome (A : Type) : Type :=
| Resolved (a : A)
| Rejected (e : error).

Arguments Resolved {A} a.
Arguments Rejected {A} e.

(* ===================================================================== *)
(** * The student model and its queries *)
(* ===================================================================== *)

Module Mongo.

(** Modelled from the spec: a stored student document, with the fields of
    the Student entity of section 3 of the specification (the schema file
    is not among the sources); the handlers read [nom], [prenom],
    [filiere], [annee], [moyenne] and [actif]. *)
Record etudiant : Type := mkEtudiant {
  _id : string;
  nom : string;
  prenom : string;
  email : string;
  filiere : string;
  annee : Q;
  moyenne : Q;
  actif : bool
}.

(** A request body, or an update document: each field may be left out. *)
Record fields : Type := mkFields {
  b_nom : option string;
  b_prenom : option string;
  b_email : option string;
  b_filiere : option string;
  b_annee : option Q;
  b_moyenne : option Q;
  b_actif : option bool
}.

Definition no_fields : fields := mkFields None None None None None None None.

(** ** Query objects *)

Inductive value : Type :=
| Undefined
| Bool (b : bool)
| Str (s : string).

Definition of_param (v : option string) : value :=
  match v with
  | Some s => Str s
  | None => Undefined
  end.

(** The condition a filter puts on one field. *)
Inductive cond : Type :=
| Equals (v : value)                        (* field: v *)
| Matches (re : RegExp.regexp)              (* field: /re/ *)
| Compare (ops : gmap string JS.number).    (* field: { $gte: .., $lte: .. } *)

(** The value of a filter key: a condition on the field of that name, or
    the list of alternatives under [$or]. *)
Inductive entry : Type :=
| Field (c : cond)
| AnyOf (clauses : list (gmap string cond)).

(** ** Reading a field of a document by name *)

Inductive field_value : Type :=
| FStr (s : string)
| FNum (q : Q)
| FBool (b : bool).

Definition get_field (k : string) (d : etudiant) : option field_value :=
  if String.eqb k "_id" then Some (FStr (_id d))
  else if String.eqb k "nom" then Some (FStr (nom d))
  else if String.eqb k "prenom" then Some (FStr (prenom d))
  else if String.eqb k "email" then Some (FStr (email d))
  else if String.eqb k "filiere" then Some (FStr (filiere d))
  else if String.eqb k "annee" then Some (FNum (annee d))
  else if String.eqb k "moyenne" then Some (FNum (moyenne d))
  else if String.eqb k "actif" then Some (FBool (actif d))
  else None.

(** ** The calls made to the model *)

Record update_options : Type := mkOptions {
  new : bool;
  runValidators : bool
}.

Inductive call : Type -> Type :=
| FindOne (f : gmap string entry) : call (option etudiant)
| Create (b : fields) : call etudiant
| Find (f : gmap string entry) (sort : gmap string Z) : call (list etudiant)
| FindById (id : option string) : call (option etudiant)
| FindByIdAndUpdate (id : option string) (update : fields)
    (opts : update_options) : call (option etudiant).

(** A persistence collaborator: a state and the way it answers a call. *)
Class Store (db : Type) : Type :=
  exec : forall B : Type, call B -> db -> db * outcome B.

Arguments exec {db _ B} _ _.

(** ** Modelled from the spec: the persistence store

    The store itself and the schema file [models/Etudiant.js] are not
    part of the sources.  What follows is the store of sections 3 and 6 of
    the specification, held in memory: exact-match lookup, lookup by
    identifier, insert with schema validation and the duplicate-key error,
    find by filter (equality, regular expression, numeric range, logical
    or), sort, and update by identifier returning the record after the
    update. *)

(** Modelled from the spec: the schema, which the store consults.  It
    builds the document for a creation body (defaults applied) or rejects
    the body, validates an update document, and recognises well-formed
    identifiers; [new_id] is the store's identifier generator. *)
Record schema : Type := mkSchema {
  validate : fields -> outcome etudiant;
  validate_update : fields -> option error;
  valid_id : string -> bool;
  new_id : list etudiant -> string
}.

(** Modelled from the spec: does a field value satisfy a comparison.
    The operators are [$gte] and [$lte], both inclusive. *)
Definition compare_op (x : Q) (op : string * JS.number) : bool :=
  if String.eqb (fst op) "$gte" then JS.num_leb (snd op) (JS.Num x)
  else if String.eqb (fst op) "$lte" then JS.num_leb (JS.Num x) (snd op)
  else false.

(** Modelled from the spec: does a field (absent when [None]) satisfy a
    condition.  A comparison with no operator is equality with the empty
    document, which no number satisfies. *)
Definition satisfies `{RegExp.Engine} (c : cond) (v : option field_value)
  : bool :=
  match c, v with
  | Equals Undefined, None => true
  | Equals (Bool b), Some (FBool x) => Bool.eqb x b
  | Equals (Str s), Some (FStr x) => String.eqb x s
  | Matches re, Some (FStr x) => RegExp.test re x
  | Compare ops, Some (FNum x) =>
      match map_to_list ops with
      | [] => false
      | op :: rest => forallb (compare_op x) (op :: rest)
      end
  | _, _ => false
  end.

(** Modelled from the spec: a conjunction of field conditions. *)
Definition clause_matches `{RegExp.Engine} (cl : gmap string cond)
    (d : etudiant) : bool :=
  forallb (fun kc => satisfies (snd kc) (get_field (fst kc) d))
          (map_to_list cl).

Definition entry_matches `{RegExp.Engine} (d : etudiant)
    (ke : string * entry) : bool :=
  match snd ke with
  | Field c => satisfies c (get_field (fst ke) d)
  | AnyOf clauses => existsb (fun cl => clause_matches cl d) clauses
  end.

(** Modelled from the spec: a filter is the conjunction of its entries. *)
Definition matches `{RegExp.Engine} (f : gmap string entry) (d : etudiant)
  : bool :=
  forallb (entry_matches d) (map_to_list f).

(** Modelled from the spec: the number cast of a comparison bound fails on
    NaN, and the query is then rejected. *)
Definition castable_entry (ke : string * entry) : bool :=
  match snd ke with
  | Field (Compare ops) =>
      forallb (fun op => negb (JS.isNaN (snd op))) (map_to_list ops)
  | _ => true
  end.

Definition castable (f : gmap string entry) : bool :=
  forallb castable_entry (map_to_list f).

Definition cast_error : error :=
  mkError NoCode "Cast to Number failed".

Definition id_cast_error : error :=
  mkError NoCode "Cast to ObjectId failed".

Definition duplicate_key_error : error :=
  mkError (NumCode 11000) "E11000 duplicate key error".

(** ** Sorting *)

(** Modelled from the spec: the order of two documents on a field.
    Strings compare by code unit, [false] comes before [true], and
    documents compare equal on a field they do not have. *)
Definition field_leb (k : string) (a b : etudiant) : bool :=
  match get_field k a, get_field k b with
  | Some (FStr x), Some (FStr y) => String.leb x y
  | Some (FNum x), Some (FNum y) => Qle_bool x y
  | Some (FBool x), Some (FBool y) => implb x y
  | _, _ => true
  end.

(** The order a sort key asks for: descending on -1, ascending otherwise. *)
Definition key_leb (k : string) (dir : Z) (a b : etudiant) : bool :=
  if (dir =? -1)%Z then field_leb k b a else field_leb k a b.

Section StableSort.
Context {A : Type} (leb : A -> A -> bool).

(** Insertion before the first element that is not smaller: records that
    compare equal keep the order they had. *)
Fixpoint insert_sorted (x : A) (l : list A) : list A :=
  match l with
  | [] => [x]
  | y :: rest => if leb x y then x :: l else y :: insert_sorted x rest
  end.

Definition stable_sort (l : list A) : list A :=
  fold_right insert_sorted [] l.
End StableSort.

(** Modelled from the spec: [.sort(options)].  No key leaves the store's
    order; the handlers build at most one key, and the precedence among
    several keys is not modelled. *)
Definition sort_by (options : gmap string Z) (l : list etudiant)
  : list etudiant :=
  fold_right (fun kd acc => stable_sort (key_leb (fst kd) (snd kd)) acc)
             l (map_to_list options).

(** ** The in-memory store *)

Definition has_id (id : string) (d : etudiant) : bool :=
  String.eqb (_id d) id.

Definition with_id (id : string) (d : etudiant) : etudiant :=
  mkEtudiant id (nom d) (prenom d) (email d) (filiere d) (annee d)
             (moyenne d) (actif d).

(** The fields of the update document replace those of the record. *)
Definition apply_update (u : fields) (d : etudiant) : etudiant :=
  mkEtudiant (_id d)
             (default (nom d) (b_nom u))
             (default (prenom d) (b_prenom u))
             (default (email d) (b_email u))
             (default (filiere d) (b_filiere u))
             (default (annee d) (b_annee u))
             (default (moyenne d) (b_moyenne u))
             (default (actif d) (b_actif u)).

(** Replace the first record carrying the identifier. *)
Fixpoint replace_by_id (id : string) (d' : etudiant) (docs : list etudiant)
  : list etudiant :=
  match docs with
  | [] => []
  | d :: rest =>
      if has_id id d then d' :: rest else d :: replace_by_id id d' rest
  end.

Definition email_taken (e : string) (docs : list etudiant) : bool :=
  existsb (fun d => String.eqb (email d) e) docs.

Section InMemory.
Context {eng : RegExp.Engine}.
Variable sch : schema.

(** Modelled from the spec: exact-match lookup, the first record the
    filter lets pass. *)
Definition mem_findOne (f : gmap string entry) (docs : list etudiant)
  : outcome (option etudiant) :=
  if castable f then Resolved (List.find (matches f) docs)
  else Rejected cast_error.

(** Modelled from the spec: insert with schema validation; an email
    already stored is the duplicate-key error, code 11000. *)
Definition mem_create (b : fields) (docs : list etudiant)
  : list etudiant * outcome etudiant :=
  match validate sch b with
  | Rejected e => (docs, Rejected e)
  | Resolved d0 =>
      if email_taken (email d0) docs then
        (docs, Rejected duplicate_key_error)
      else
        let d := with_id (new_id sch docs) d0 in
        (docs ++ [d], Resolved d)
  end.

(** Modelled from the spec: find by filter, then sort. *)
Definition mem_find (f : gmap string entry) (sort : gmap string Z)
    (docs : list etudiant) : outcome (list etudiant) :=
  if castable f then Resolved (sort_by sort (List.filter (matches f) docs))
  else Rejected cast_error.

(** Modelled from the spec: lookup by identifier, whatever the [actif]
    flag; an identifier the schema does not recognise makes the cast
    throw. *)
Definition mem_findById (id : option string) (docs : list etudiant)
  : outcome (option etudiant) :=
  match id with
  | None => Resolved None
  | Some i =>
      if valid_id sch i then Resolved (List.find (has_id i) docs)
      else Rejected id_cast_error
  end.

(** Modelled from the spec: update by identifier, with validation when
    asked for, answering the record after the update under [new]. *)
Definition mem_findByIdAndUpdate (id : option string) (u : fields)
    (opts : update_options) (docs : list etudiant)
  : list etudiant * outcome (option etudiant) :=
  match id with
  | None => (docs, Resolved None)
  | Some i =>
      if negb (valid_id sch i) then (docs, Rejected id_cast_error)
      else
        match (if runValidators opts then validate_update sch u else None)
        with
        | Some e => (docs, Rejected e)
        | None =>
            match List.find (has_id i) docs with
            | None => (docs, Resolved None)
            | Some d =>
                let d' := apply_update u d in
                (replace_by_id i d' docs,
                 Resolved (Some (if new opts then d' else d)))
            end
        end
  end.

(** Modelled from the spec: the in-memory store answering a call. *)
Definition mem_exec (B : Type) (c : call B) (docs : list etudiant)
  : list etudiant * outcome B :=
  match c in call T return list etudiant * outcome T with
  | FindOne f => (docs, mem_findOne f docs)
  | Create b => mem_create b docs
  | Find f sort => (docs, mem_find f sort docs)
  | FindById id => (docs, mem_findById id docs)
  | FindByIdAndUpdate id u opts => mem_findByIdAndUpdate id u opts docs
  end.
End InMemory.

End Mongo.

(* ===================================================================== *)
(** * Requests and responses *)
(* ===================================================================== *)

(** [req.params], [req.query] and [req.body].  Route and query parameters
    are strings; a parameter that is not given is absent from the map. *)
Record request : Type := mkRequest {
  params : gmap string string;
  query : gmap string string;
  body : Mongo.fields
}.

(** The response: a status code and the object passed to [res.json]. *)
Module Http.

Inductive payload : Type :=
| One (d : Mongo.etudiant)
| Many (l : list Mongo.etudiant).

(** The object passed to [res.json]; a key that is not written, or whose
    value is [undefined], is [None]. *)
Record envelope : Type := mkEnvelope {
  success : bool;
  message : option string;
  count : option nat;
  filiere : option string;
  query_echo : option string;               (* key [query] *)
  filters : option (gmap string string);
  sortBy : option string;
  order : option string;
  data : option payload;
  error_text : option string                (* key [error] *)
}.

Record response : Type := mkResponse {
  status : Z;
  json : envelope
}.

End Http.

Section Envelope.
Import Http.

Definition reply (success : bool) : envelope :=
mkEnvelope success None None None None None None None None None.

Definition with_message (m : string) (e : envelope) : envelope :=
mkEnvelope (success e) (Some m) (count e) (filiere e) (query_echo e)
           (filters e) (sortBy e) (order e) (data e) (error_text e).

Definition with_error (m : string) (e : envelope) : envelope :=
mkEnvelope (success e) (message e) (count e) (filiere e) (query_echo e)
           (filters e) (sortBy e) (order e) (data e) (Some m).

Definition with_data (d : payload) (e : envelope) : envelope :=
mkEnvelope (success e) (message e) (count e) (filiere e) (query_echo e)
           (filters e) (sortBy e) (order e) (Some d) (error_text e).

(** [data: etudiant] where the value may be [null] *)
Definition with_data_opt (d : option payload) (e : envelope) : envelope :=
mkEnvelope (success e) (message e) (count e) (filiere e) (query_echo e)
           (filters e) (sortBy e) (order e) d (error_text e).

(** [count: etudiants.length, data: etudiants] *)
Definition with_list (l : list Mongo.etudiant) (e : envelope) : envelope :=
mkEnvelope (success e) (message e) (Some (length l)) (filiere e)
           (query_echo e) (filters e) (sortBy e) (order e)
           (Some (Many l)) (error_text e).

Definition with_filiere (v : option string) (e : envelope) : envelope :=
mkEnvelope (success e) (message e) (count e) v (query_echo e)
           (filters e) (sortBy e) (order e) (data e) (error_text e).

Definition with_query (v : option string) (e : envelope) : envelope :=
mkEnvelope (success e) (message e) (count e) (filiere e) v
           (filters e) (sortBy e) (order e) (data e) (error_text e).

Definition with_filters (q : gmap string string) (e : envelope) : envelope :=
mkEnvelope (success e) (message e) (count e) (filiere e) (query_echo e)
           (Some q) (sortBy e) (order e) (data e) (error_text e).

Definition with_sort (by_ ord : option string) (e : envelope) : envelope :=
mkEnvelope (success e) (message e) (count e) (filiere e) (query_echo e)
           (filters e) by_ ord (data e) (error_text e).

End Envelope.

(* ===================================================================== *)
(** * The handler monad: [async], [await], [try], [catch] *)
(* ===================================================================== *)

(** A handler either finishes with a value, throws, or awaits a call to
    the model and goes on with the way the promise settles. *)
Inductive io (A : Type) : Type :=
| Ret (a : A)
| Throw (e : error)
| Await {B : Type} (c : Mongo.call B) (k : outcome B -> io A).

Arguments Ret {A} a.
Arguments Throw {A} e.
Arguments Await {A B} c k.

Fixpoint io_bind {A B : Type} (f : A -> io B) (m : io A) : io B :=
  match m with
  | Ret a => f a
  | Throw e => Throw e
  | Await c k => Await c (fun o => io_bind f (k o))
  end.

#[global] Instance io_ret : MRet io := fun A a => Ret a.
#[global] Instance io_mbind : MBind io := fun A B f m => io_bind f m.

(** [try { m } catch (error) { h error }] *)
Fixpoint try_catch {A : Type} (m : io A) (h : error -> io A) : io A :=
  match m with
  | Ret a => Ret a
  | Throw e => h e
  | Await c k => Await c (fun o => try_catch (k o) h)
  end.

(** [await call]: a rejected promise throws at the [await]. *)
Definition await {B : Type} (c : Mongo.call B) : io B :=
  Await c (fun o => match o with
                    | Resolved b => Ret b
                    | Rejected e => Throw e
                    end).

(** [res.status(code).json(obj)] *)
Definition respond (code : Z) (obj : Http.envelope)
  : io Http.response :=
  Ret (Http.mkResponse code obj).

(** The SyntaxError [new RegExp] throws.  The wording of the message is
    the engine's; nothing below relies on it. *)
Definition syntax_error (pattern flags reason : string) : error :=
  mkError NoCode
    ("Invalid regular expression: /" +:+ pattern +:+ "/" +:+ flags
     +:+ ": " +:+ reason).

(** [new RegExp(pattern, flags)] inside a handler: the expression, or the
    SyntaxError thrown. *)
Definition new_RegExp `{RegExp.Engine} (pattern : option string)
    (flags : string) : io RegExp.regexp :=
  match RegExp.construct pattern flags with
  | RegExp.Built re => Ret re
  | RegExp.Failed reason =>
      Throw (syntax_error (default "" pattern) flags reason)
  end.

(** ToString of a parameter: [undefined] reads "undefined". *)
Definition to_string (v : option string) : string :=
  default "undefined" v.

(** [v === s] for a parameter [v] and a string literal [s]. *)
Definition strict_eq (v : option string) (s : string) : bool :=
  match v with
  | Some x => String.eqb x s
  | None => false
  end.

(** ** Running a handler against a store *)

Inductive result (A : Type) : Type :=
| Done (a : A)
| Uncaught (e : error).

Arguments Done {A} a.
Arguments Uncaught {A} e.

Fixpoint run {db : Type} {store : Mongo.Store db} {A : Type}
    (m : io A) (d : db) : db * result A :=
  match m with
  | Ret a => (d, Done a)
  | Throw e => (d, Uncaught e)
  | Await c k => let '(d', o) := Mongo.exec c d in run (k o) d'
  end.

(** The number of calls a handler makes to the store on this run. *)
Fixpoint calls {db : Type} {store : Mongo.Store db} {A : Type}
    (m : io A) (d : db) : nat :=
  match m with
  | Await c k => let '(d', o) := Mongo.exec c d in S (calls (k o) d')
  | _ => O
  end.

(* ===================================================================== *)
(** * The handlers of etudiantController.js *)
(* ===================================================================== *)

Import Mongo.

Abbreviation response := Http.response.

(** [catch (error)] of the read handlers: status 500. *)
Definition server_error (error : error) : io response :=
  respond 500 (with_error (message error)
                 (with_message "Erreur serveur" (reply false))).

Definition not_found : io response :=
  respond 404 (with_message "Étudiant non trouvé" (reply false)).

(** [{ actif: b }] *)
Definition actif_is (b : bool) : gmap string entry :=
  {[ "actif" := Field (Equals (Bool b)) ]}.

(** [{ nom: n, prenom: p }] *)
Definition name_filter (n p : option string) : gmap string entry :=
  <["prenom" := Field (Equals (of_param p))]>
    {[ "nom" := Field (Equals (of_param n)) ]}.

(** POST /api/etudiants *)
Definition createEtudiant (req : request) : io response :=
  try_catch
    (existeDeja ← await (FindOne
        (name_filter (b_nom (body req)) (b_prenom (body req))));
     if JS.truthy_obj existeDeja then
       respond 400
         (with_message "Un étudiant avec ce nom et ce prénom existe déjà"
            (reply false))
     else
       etudiant ← await (Create (body req));
       respond 201
         (with_data (Http.One etudiant)
            (with_message "Étudiant créé avec succès" (reply true))))
    (fun error =>
       if code_is 11000 error then
         respond 400 (with_message "Cet email existe déjà" (reply false))
       else
         respond 400
           (with_error (message error)
              (with_message "Données invalides" (reply false)))).

(** GET /api/etudiants *)
Definition getAllEtudiants (req : request) : io response :=
  try_catch
    (etudiants ← await (Find (actif_is true) ∅);
     respond 200 (with_list etudiants (reply true)))
    server_error.

(** GET /api/etudiants/:id *)
Definition getEtudiantById (req : request) : io response :=
  try_catch
    (etudiant ← await (FindById (params req !! "id"));
     if negb (JS.truthy_obj etudiant) then not_found
     else
       respond 200
         (with_data_opt (Http.One <$> etudiant) (reply true)))
    server_error.

(** PUT /api/etudiants/:id *)
Definition updateEtudiant (req : request) : io response :=
  try_catch
    (etudiant ← await (FindByIdAndUpdate (params req !! "id") (body req)
                         (mkOptions true true));
     if negb (JS.truthy_obj etudiant) then not_found
     else
       respond 200
         (with_data_opt (Http.One <$> etudiant)
            (with_message "Étudiant mis à jour avec succès" (reply true))))
    (fun error =>
       respond 400
         (with_error (message error)
            (with_message "Erreur de mise à jour" (reply false)))).

(** [{ actif: false }] as an update document *)
Definition deactivate : fields :=
  mkFields None None None None None None (Some false).

(** DELETE /api/etudiants/:id *)
Definition deleteEtudiant (req : request) : io response :=
  try_catch
    (etudiant ← await (FindByIdAndUpdate (params req !! "id") deactivate
                         (mkOptions true false));
     if negb (JS.truthy_obj etudiant) then not_found
     else
       respond 200
         (with_data_opt (Http.One <$> etudiant)
            (with_message "Étudiant désactivé avec succès" (reply true))))
    server_error.

(** GET /api/etudiants/filiere/:filiere *)
Definition getEtudiantsByFiliere (req : request) : io response :=
  try_catch
    (etudiants ← await (Find
        {[ "filiere" := Field (Equals (of_param (params req !! "filiere"))) ]}
        ∅);
     respond 200
       (with_filiere (params req !! "filiere")
          (with_list etudiants (reply true))))
    server_error.

(** [{ actif: true, $or: [{ nom: regex }, { prenom: regex }] }] *)
Definition search_filter (regex : RegExp.regexp) : gmap string entry :=
  <["$or" := AnyOf [ {[ "nom" := Matches regex ]};
                     {[ "prenom" := Matches regex ]} ]]> (actif_is true).

(** GET /api/etudiants/search?q=... *)
Definition searchEtudiants `{RegExp.Engine} (req : request) : io response :=
  try_catch
    (let q := query req !! "q" in
     if negb (JS.truthy q) then
       respond 400
         (with_message "Le paramètre de recherche q est obligatoire"
            (reply false))
     else
       regex ← new_RegExp q "i";
       etudiants ← await (Find (search_filter regex) ∅);
       respond 200 (with_query q (with_list etudiants (reply true))))
    server_error.

(** GET /api/etudiants/inactifs *)
Definition getEtudiantsInactifs (req : request) : io response :=
  try_catch
    (etudiants ← await (Find (actif_is false) ∅);
     respond 200 (with_list etudiants (reply true)))
    server_error.

(** The range object of [filter.annee]: [{}], then [$gte] and [$lte]. *)
Definition annee_range (anneeMin anneeMax : option string)
  : gmap string JS.number :=
  let r := ∅ in
  let r := if JS.truthy anneeMin
           then <["$gte" := JS.parseInt (to_string anneeMin)]> r else r in
  if JS.truthy anneeMax
  then <["$lte" := JS.parseInt (to_string anneeMax)]> r else r.

(** The filter built by [advancedSearch] from the query parameters, up
    to the call to [Etudiant.find]. *)
Definition advancedSearch_filter `{RegExp.Engine}
    (query : gmap string string) : io (gmap string entry) :=
  let nom := query !! "nom" in
  let filiere := query !! "filiere" in
  let anneeMin := query !! "anneeMin" in
  let anneeMax := query !! "anneeMax" in
  let moyenneMin := query !! "moyenneMin" in
  let filter := actif_is true in
  filter ← (if JS.truthy nom
            then re ← new_RegExp nom "i";
                 mret (<["nom" := Field (Matches re)]> filter)
            else mret filter);
  let filter := if JS.truthy filiere
                then <["filiere" := Field (Equals (of_param filiere))]> filter
                else filter in
  let filter := if JS.truthy anneeMin || JS.truthy anneeMax
                then <["annee" :=
                         Field (Compare (annee_range anneeMin anneeMax))]>
                       filter
                else filter in
  let filter := if JS.truthy moyenneMin
                then <["moyenne" :=
                         Field (Compare
                           {[ "$gte" :=
                                JS.parseFloat (to_string moyenneMin) ]})]>
                       filter
                else filter in
  mret filter.

(** GET /api/etudiants/advanced?nom=&filiere=&anneeMin=&anneeMax=&moyenneMin= *)
Definition advancedSearch `{RegExp.Engine} (req : request) : io response :=
  try_catch
    (filter ← advancedSearch_filter (query req);
     etudiants ← await (Find filter ∅);
     respond 200
       (with_filters (query req) (with_list etudiants (reply true))))
    server_error.

(** The object [sortOptions] built by [getEtudiantsSorted]. *)
Definition sortOptions_of (sortBy order : option string) : gmap string Z :=
  let sortOptions := ∅ in
  if JS.truthy sortBy
  then JS.set_property (to_string sortBy)
         (if strict_eq order "desc" then (-1)%Z else 1%Z) sortOptions
  else sortOptions.

(** GET /api/etudiants/sorted?sortBy=&order= *)
Definition getEtudiantsSorted (req : request) : io response :=
  try_catch
    (let sortBy := query req !! "sortBy" in
     let order := query req !! "order" in
     let sortOptions := sortOptions_of sortBy order in
     etudiants ← await (Find (actif_is true) sortOptions);
     respond 200
       (with_sort sortBy order (with_list etudiants (reply true))))
    server_error.

(* ===================================================================== *)
(** * The in-memory store as a collaborator, and sample data *)
(* ===================================================================== *)

(** Running a handler against the in-memory store under a schema. *)
Definition run_mem `{RegExp.Engine} {A : Type} (sch : schema) (m : io A)
    (docs : list etudiant) : list etudiant * result A :=
  @run (list etudiant) (mem_exec sch) A m docs.

(** The engine of the examples, whose patterns all lie in the fragment:
    it knows nothing beyond it and has [new RegExp] throw there. *)
#[global] Instance fragment_only : RegExp.Engine :=
  {| RegExp.beyond_error := fun _ _ => Some "Invalid regular expression";
     RegExp.beyond_test := fun _ _ _ => false |}.

Definition is_hex (c : ascii) : bool :=
  match JS.digit_value 16 c with
  | Some _ => true
  | None => false
  end.

(** Twenty-four hexadecimal digits. *)
Definition hex24 (s : string) : bool :=
  let cs := list_ascii_of_string s in
  (length cs =? 24)%nat && forallb is_hex cs.

Definition hex_digit (n : nat) : ascii :=
  nth n (list_ascii_of_string "0123456789abcdef") "0"%char.

(** The identifier of the [n]-th record: [n] below 256 written in two
    hexadecimal digits after twenty-two zeros. *)
Definition sample_id (n : nat) : string :=
  "0000000000000000000000"
    +:+ string_of_list_ascii [hex_digit (n / 16 mod 16); hex_digit (n mod 16)].

Definition validation_error (m : string) : error := mkError NoCode m.

(** Modelled from the spec: a schema for the examples, standing for the
    missing [models/Etudiant.js].  [nom], [prenom] and [email] are
    required, [actif] is true unless given, and an identifier is twenty-four
    hexadecimal digits. *)
Definition sample_schema : schema :=
  mkSchema
    (fun b =>
       match b_nom b, b_prenom b, b_email b with
       | Some n, Some p, Some e =>
           Resolved (mkEtudiant "" n p e (default "" (b_filiere b))
                       (default 0%Q (b_annee b)) (default 0%Q (b_moyenne b))
                       (default true (b_actif b)))
       | _, _, _ =>
           Rejected (validation_error "Etudiant validation failed")
       end)
    (fun _ => None)
    hex24
    (fun docs => sample_id (length docs)).

(** Modelled from the spec: a schema for the examples whose validation
    rejects every body with the given error. *)
Definition rejecting_schema (e : error) : schema :=
  mkSchema (fun _ => Rejected e) (fun _ => None) hex24
           (fun docs => sample_id (length docs)).

(** The two students of the scenario of the specification, and a third,
    inactive one. *)
Definition dupont : etudiant :=
  mkEtudiant (sample_id 0) "Dupont" "Jean" "jean@x.com" "CS"
             (inject_Z 2021) (29 # 2) true.

Definition martin : etudiant :=
  mkEtudiant (sample_id 1) "Martin" "Alice" "alice@x.com" "Math"
             (inject_Z 2022) (inject_Z 16) true.

Definition marechal : etudiant :=
  mkEtudiant (sample_id 2) "Marechal" "Marie" "marie@x.com" "CS"
             (inject_Z 2020) (inject_Z 12) false.

Definition sample_docs : list etudiant := [dupont; martin; marechal].

Definition get_request (path : list (string * string)) (q : list (string * string))
  : request :=
  mkRequest (list_to_map path) (list_to_map q) no_fields.

Definition post_request (b : fields) : request := mkRequest ∅ ∅ b.

(* ===================================================================== *)
(** * The notions the properties are stated with *)
(* ===================================================================== *)

(** ** Literal, case-insensitive substrings *)

(** The characters with a meaning of their own in a pattern. *)
Definition metachar (c : ascii) : bool :=
  match c with
  | "^"%char | "$"%char | "\"%char | "."%char | "*"%char | "+"%char
  | "?"%char | "("%char | ")"%char | "["%char | "]"%char | "{"%char
  | "}"%char | "|"%char => true
  | _ => false
  end.

(** A string without any such character. *)
Definition plain (q : string) : bool :=
  forallb (fun c => negb (metachar c)) (list_ascii_of_string q).

Definition fold_case (s : string) : list ascii :=
  map RegExp.canonicalize (list_ascii_of_string s).

(** Following the words of the specification: [q] is a literal,
    case-folded substring of [s]. *)
Definition substring_ci (q s : string) : Prop :=
  exists pre post : list ascii, fold_case s = pre ++ fold_case q ++ post.

(** The same, computed: [cs] starts [s], and [cs] occurs in [s]. *)
Fixpoint prefix_ci (cs s : list ascii) : bool :=
  match cs, s with
  | [], _ => true
  | c :: cs', x :: s' => RegExp.same_char true x c && prefix_ci cs' s'
  | _ :: _, [] => false
  end.

Fixpoint occurs_ci (cs s : list ascii) : bool :=
  prefix_ci cs s
  || match s with
     | [] => false
     | _ :: s' => occurs_ci cs s'
     end.

(** The pattern a string of ordinary characters stands for. *)
Definition literal (cs : list ascii) : RegExp.regex :=
  fold_right (fun c r => RegExp.Seq (RegExp.Chr c) r) RegExp.Eps cs.

(** The frame of the parser after reading ordinary characters. *)
Definition push_chars (cs : list ascii) (f : RegExp.frame) : RegExp.frame :=
  fold_left (fun g c => RegExp.push_atom (RegExp.Chr c) g) cs f.

(** The answer of [searchEtudiants] carrying the records [found]. *)
Definition search_found (q : string) (found : list etudiant) : response :=
  Http.mkResponse 200
    (Http.mkEnvelope true None (Some (length found)) None (Some q) None
       None None (Some (Http.Many found)) None).

(** The answer of [advancedSearch] carrying the records [found]. *)
Definition advanced_found (query : gmap string string)
    (found : list etudiant) : response :=
  Http.mkResponse 200
    (Http.mkEnvelope true None (Some (length found)) None None (Some query)
       None None (Some (Http.Many found)) None).

(** The answer of the read handlers when [error] is caught. *)
Definition server_error_response (error : error) : response :=
  Http.mkResponse 500
    (Http.mkEnvelope false (Some "Erreur serveur") None None None None
       None None None (Some (message error))).

(** ** Search, as the specification words it *)

(** Following the words of the specification: [found] holds exactly the
    active records whose [nom] or [prenom] contains [q] as a literal,
    case-folded substring. *)
Definition search_as_specified (q : string) (docs found : list etudiant) : Prop :=
  forall d : etudiant,
    In d found <->
    In d docs /\ actif d = true
    /\ (substring_ci q (nom d) \/ substring_ci q (prenom d)).

(** ** The filter of the advanced search *)

(** The filter [advancedSearch] holds when it calls [Etudiant.find], given
    the regular expression built for [nom], if any. *)
Definition advanced_filter (re : option RegExp.regexp)
    (query : gmap string string) : gmap string entry :=
  let filiere := query !! "filiere" in
  let anneeMin := query !! "anneeMin" in
  let anneeMax := query !! "anneeMax" in
  let moyenneMin := query !! "moyenneMin" in
  let filter := actif_is true in
  let filter := match re with
                | Some r => <["nom" := Field (Matches r)]> filter
                | None => filter
                end in
  let filter := if JS.truthy filiere
                then <["filiere" := Field (Equals (of_param filiere))]> filter
                else filter in
  let filter := if JS.truthy anneeMin || JS.truthy anneeMax
                then <["annee" :=
                         Field (Compare (annee_range anneeMin anneeMax))]>
                       filter
                else filter in
  if JS.truthy moyenneMin
  then <["moyenne" :=
           Field (Compare
             {[ "$gte" := JS.parseFloat (to_string moyenneMin) ]})]>
         filter
  else filter.

(** The regular expression [advancedSearch] builds for [nom]: none when
    [nom] is absent or empty, else the one [new RegExp(nom, 'i')] returns. *)
Definition nom_regexp `{RegExp.Engine} (query : gmap string string)
    (re : option RegExp.regexp) : Prop :=
  if JS.truthy (query !! "nom")
  then exists r : RegExp.regexp,
         RegExp.construct (query !! "nom") "i" = RegExp.Built r
         /\ re = Some r
  else re = None.

(** What the filter of [advancedSearch] asks of a record, computed. *)
Definition passes_b `{RegExp.Engine} (re : option RegExp.regexp)
    (query : gmap string string) (d : etudiant) : bool :=
  let filiere_ := query !! "filiere" in
  let anneeMin := query !! "anneeMin" in
  let anneeMax := query !! "anneeMax" in
  let moyenneMin := query !! "moyenneMin" in
  actif d
  && match re with
     | Some r => RegExp.test r (nom d)
     | None => true
     end
  && (if JS.truthy filiere_
      then String.eqb (filiere d) (to_string filiere_) else true)
  && (if JS.truthy anneeMin
      then JS.num_leb (JS.parseInt (to_string anneeMin)) (JS.Num (annee d))
      else true)
  && (if JS.truthy anneeMax
      then JS.num_leb (JS.Num (annee d)) (JS.parseInt (to_string anneeMax))
      else true)
  && (if JS.truthy moyenneMin
      then JS.num_leb (JS.parseFloat (to_string moyenneMin))
                      (JS.Num (moyenne d))
      else true).

(** The keys a filter should hold for a query: [actif], and the key of
    each input that is present and not empty. *)
Definition expected_key (query : gmap string string) (k : string) : Prop :=
  k = "actif"
  \/ (k = "nom" /\ JS.truthy (query !! "nom") = true)
  \/ (k = "filiere" /\ JS.truthy (query !! "filiere") = true)
  \/ (k = "annee" /\ (JS.truthy (query !! "anneeMin") = true
                      \/ JS.truthy (query !! "anneeMax") = true))
  \/ (k = "moyenne" /\ JS.truthy (query !! "moyenneMin") = true).

(** A condition that holds of an input when it is present and not empty. *)
Definition when_given (v : option string) (P : string -> Prop) : Prop :=
  forall s : string, v = Some s -> s <> "" -> P s.

(** Following the words of the specification: what a record must satisfy
    to pass the filters of a query, [nom] being a literal case-insensitive
    substring. *)
Definition passes (query : gmap string string) (d : etudiant) : Prop :=
  actif d = true
  /\ when_given (query !! "nom") (fun s => substring_ci s (nom d))
  /\ when_given (query !! "filiere") (fun s => filiere d = s)
  /\ when_given (query !! "anneeMin")
       (fun s => JS.num_leb (JS.parseInt s) (JS.Num (annee d)) = true)
  /\ when_given (query !! "anneeMax")
       (fun s => JS.num_leb (JS.Num (annee d)) (JS.parseInt s) = true)
  /\ when_given (query !! "moyenneMin")
       (fun s => JS.num_leb (JS.parseFloat s) (JS.Num (moyenne d)) = true).

(** Following the words of the specification: for the query, a filter is
    built, it holds exactly the expected keys, and it lets pass exactly
    the records that pass the filters of the query. *)
Definition filter_as_specified `{RegExp.Engine}
    (query : gmap string string) : Prop :=
  exists f : gmap string entry,
    advancedSearch_filter query = Ret f
    /\ (forall k : string, is_Some (f !! k) <-> expected_key query k)
    /\ (forall d : etudiant, matches f d = true <-> passes query d).

(* ===================================================================== *)
(** * Notions about every handler *)
(* ===================================================================== *)

(** The ten handlers the controller exports. *)
Definition handlers `{RegExp.Engine} : list (request -> io response) :=
  [createEtudiant; getAllEtudiants; getEtudiantById; updateEtudiant;
   deleteEtudiant; getEtudiantsByFiliere; searchEtudiants;
   getEtudiantsInactifs; advancedSearch; getEtudiantsSorted].

(** All of them but [createEtudiant]. *)
Definition single_call_handlers `{RegExp.Engine}
  : list (request -> io response) :=
  [getAllEtudiants; getEtudiantById; updateEtudiant; deleteEtudiant;
   getEtudiantsByFiliere; searchEtudiants; getEtudiantsInactifs;
   advancedSearch; getEtudiantsSorted].

(** The handlers of the GET routes. *)
Definition read_handlers `{RegExp.Engine}
  : list (request -> io response) :=
  [getAllEtudiants; getEtudiantById; getEtudiantsByFiliere;
   searchEtudiants; getEtudiantsInactifs; advancedSearch;
   getEtudiantsSorted].

(** Every value a program may finish with satisfies [P], however the
    promises it awaits settle. *)
Fixpoint leaves {A : Type} (P : A -> Prop) (m : io A) : Prop :=
  match m with
  | Ret a => P a
  | Throw _ => True
  | Await c k => forall o, leaves P (k o)
  end.

(** No exception leaves the program, however the promises settle. *)
Fixpoint catches_all {A : Type} (m : io A) : Prop :=
  match m with
  | Throw _ => False
  | Await c k => forall o, catches_all (k o)
  | _ => True
  end.

(** The program awaits at most [n] calls, however the promises settle. *)
Fixpoint at_most {A : Type} (n : nat) (m : io A) : Prop :=
  match m with
  | Await c k =>
      match n with
      | O => False
      | S n' => forall o, at_most n' (k o)
      end
  | _ => True
  end.

(** The calls that only look records up. *)
Definition is_lookup {B : Type} (c : call B) : bool :=
  match c with
  | FindOne _ | Find _ _ | FindById _ => true
  | Create _ | FindByIdAndUpdate _ _ _ => false
  end.

(** The program awaits lookups only. *)
Fixpoint lookups_only {A : Type} (m : io A) : Prop :=
  match m with
  | Await c k => is_lookup c = true /\ forall o, lookups_only (k o)
  | _ => True
  end.

(** The shape every answer has: [success] tells a status below 400, the
    status is one of five, [count] is there exactly with a list of records
    and is its length, a failure carries no record and a success no error
    text. *)
Definition envelope_ok (res : response) : Prop :=
  Http.success (Http.json res) = (Http.status res <? 400)%Z
  /\ In (Http.status res) [200; 201; 400; 404; 500]%Z
  /\ Http.count (Http.json res)
     = match Http.data (Http.json res) with
       | Some (Http.Many l) => Some (length l)
       | _ => None
       end
  /\ (Http.success (Http.json res) = false ->
      Http.data (Http.json res) = None)
  /\ (Http.success (Http.json res) = true ->
      Http.error_text (Http.json res) = None).

(** The answer of the list handlers carrying the records [found]. *)
Definition list_found (found : list etudiant) : response :=
  Http.mkResponse 200
    (Http.mkEnvelope true None (Some (length found)) None None None
       None None (Some (Http.Many found)) None).

(** An answer with a message and nothing else. *)
Definition message_only (code : Z) (success : bool) (m : string)
  : response :=
  Http.mkResponse code
    (Http.mkEnvelope success (Some m) None None None None None None None
       None).

(** An answer with a message and a record. *)
Definition message_with (code : Z) (m : string) (d : etudiant) : response :=
  Http.mkResponse code
    (Http.mkEnvelope true (Some m) None None None None None None
       (Some (Http.One d)) None).

(** An answer of failure with a message and the text of an error. *)
Definition failure_with (code : Z) (m : string) (e : error) : response :=
  Http.mkResponse code
    (Http.mkEnvelope false (Some m) None None None None None None None
       (Some (message e))).

(** A store out of reach: every call rejects with the same error. *)
Definition unreachable_store (e : error) : Store unit :=
  fun (B : Type) (_ : call B) (d : unit) => (d, Rejected e).

Definition connection_refused : error :=
  mkError (StrCode "ECONNREFUSED") "connect ECONNREFUSED".

(** The five inputs [advancedSearch] reads. *)
Definition advanced_inputs : list string :=
  ["nom"; "filiere"; "anneeMin"; "anneeMax"; "moyenneMin"].

(** The identifiers of the records of a store, in its order. *)
Definition ids (docs : list etudiant) : list string := map _id docs.


(* ===================================================================== *)
(** * Proofs *)
(* ===================================================================== *)

(** ** Filters as conjunctions of their entries *)

Lemma forallb_permutation {A : Type} (f : A -> bool) (l l' : list A) :
  Permutation l l' -> forallb f l = forallb f l'.
Proof.
  induction 1 as [| x l l' _ IH | x y l | l l' l'' _ IH1 _ IH2]; cbn.
  - reflexivity.
  - now rewrite IH.
  - destruct (f x), (f y); reflexivity.
  - congruence.
Qed.

Lemma forallb_map_insert {V : Type} (f : string * V -> bool)
    (k : string) (v : V) (m : gmap string V) :
  m !! k = None ->
  forallb f (map_to_list (<[k := v]> m)) = f (k, v) && forallb f (map_to_list m).
Proof.
  intros Hk.
  rewrite (forallb_permutation f _ _ (map_to_list_insert m k v Hk)).
  reflexivity.
Qed.

Lemma forallb_map_singleton {V : Type} (f : string * V -> bool)
    (k : string) (v : V) :
  forallb f (map_to_list ({[ k := v ]} : gmap string V)) = f (k, v).
Proof.
  rewrite map_to_list_singleton. cbn. now rewrite andb_true_r.
Qed.

Lemma matches_insert {eng : RegExp.Engine}
    (k : string) (e : entry) (f : gmap string entry)
    (d : etudiant) :
  f !! k = None ->
  matches (<[k := e]> f) d = entry_matches d (k, e) && matches f d.
Proof. intros Hk. unfold matches. now apply forallb_map_insert. Qed.

Lemma matches_singleton {eng : RegExp.Engine}
    (k : string) (e : entry) (d : etudiant) :
  matches {[ k := e ]} d = entry_matches d (k, e).
Proof. unfold matches. apply forallb_map_singleton. Qed.

Lemma matches_actif {eng : RegExp.Engine} (b : bool) (d : etudiant) :
  matches (actif_is b) d = Bool.eqb (actif d) b.
Proof. unfold actif_is. rewrite matches_singleton. reflexivity. Qed.

Lemma castable_insert (k : string) (e : entry) (f : gmap string entry) :
  f !! k = None ->
  castable (<[k := e]> f) = castable_entry (k, e) && castable f.
Proof. intros Hk. unfold castable. now apply forallb_map_insert. Qed.

Lemma castable_singleton (k : string) (e : entry) :
  castable {[ k := e ]} = castable_entry (k, e).
Proof. unfold castable. apply forallb_map_singleton. Qed.

Lemma sort_by_empty (l : list etudiant) : sort_by ∅ l = l.
Proof. unfold sort_by. now rewrite map_to_list_empty. Qed.

Lemma sort_by_singleton (k : string) (dir : Z) (l : list etudiant) :
  sort_by {[ k := dir ]} l = stable_sort (key_leb k dir) l.
Proof. unfold sort_by. now rewrite map_to_list_singleton. Qed.

(** ** Search without a query string (C9) *)

(** C9: when the query parameter [q] is absent or empty, [searchEtudiants]
    answers 400 with the required-parameter message, and it does so
    without awaiting any call to the model: the handler is a bare
    response, so whatever the store, no call is made to it. *)
Theorem search_requires_q {eng : RegExp.Engine} (req : request) :
  JS.truthy (query req !! "q") = false ->
  searchEtudiants req
  = respond 400
      (with_message "Le paramètre de recherche q est obligatoire"
         (reply false))
  /\ forall (db : Type) (store : Store db) (d : db),
       calls (searchEtudiants req) d = 0%nat
       /\ fst (run (searchEtudiants req) d) = d.
Proof.
  intros Hq. unfold searchEtudiants. rewrite Hq. cbn. split.
  - reflexivity.
  - intros db store d. split; reflexivity.
Qed.

Lemma search_requires_q_witness :
  JS.truthy (query (get_request [] [("q", "")]) !! "q") = false
  /\ searchEtudiants (get_request [] [("q", "")])
     = respond 400
         (with_message "Le paramètre de recherche q est obligatoire"
            (reply false)).
Proof.
  split.
  - vm_compute. reflexivity.
  - apply (search_requires_q (get_request [] [("q", "")])).
    vm_compute. reflexivity.
Defined.

(** ** Lookup by identifier (C1) *)

(** C1, as the code has it: [getEtudiantById] answers according to the
    way the lookup settles.  When the lookup throws, as it does on a
    malformed identifier, the answer is 500 with the generic server-error
    message and the text of the error; 404 is the answer only when the
    lookup resolves to nothing, and 200 when it resolves to a record. *)
Theorem getById_by_lookup (db : Type) (store : Store db) (req : request)
    (d d' : db) (o : outcome (option etudiant)) :
  exec (FindById (params req !! "id")) d = (d', o) ->
  run (getEtudiantById req) d
  = (d', Done
           match o with
           | Rejected e =>
               Http.mkResponse 500
                 (with_error (message e)
                    (with_message "Erreur serveur" (reply false)))
           | Resolved None =>
               Http.mkResponse 404
                 (with_message "Étudiant non trouvé" (reply false))
           | Resolved (Some etudiant) =>
               Http.mkResponse 200
                 (with_data (Http.One etudiant) (reply true))
           end).
Proof.
  intros Hexec. unfold getEtudiantById. cbn. rewrite Hexec.
  destruct o as [[etudiant |] | e]; reflexivity.
Qed.

Lemma getById_by_lookup_witness :
  run_mem sample_schema
    (getEtudiantById (get_request [("id", "zzz")] [])) sample_docs
  = (sample_docs,
     Done (Http.mkResponse 500
             (with_error "Cast to ObjectId failed"
                (with_message "Erreur serveur" (reply false))))).
Proof.
  apply (getById_by_lookup (list etudiant) (mem_exec sample_schema)
           (get_request [("id", "zzz")] []) sample_docs sample_docs
           (Rejected id_cast_error)).
  vm_compute. reflexivity.
Defined.

(** C1, refuted as stated: on the malformed identifier [zzz] the lookup
    of the store throws, and the handler answers 500, not 404. *)
Lemma getById_malformed_is_500 :
  mem_findById sample_schema (Some "zzz") sample_docs
  = Rejected id_cast_error
  /\ exists res : response,
       run_mem sample_schema
         (getEtudiantById (get_request [("id", "zzz")] [])) sample_docs
       = (sample_docs, Done res)
       /\ Http.status res = 500%Z
       /\ Http.status res <> 404%Z.
Proof.
  split; [vm_compute; reflexivity |].
  eexists. split; [vm_compute; reflexivity |].
  split; [reflexivity | discriminate].
Qed.

(** ** A failing insert (C4) *)

Lemma code_is_spec (n : Z) (e : error) :
  code_is n e = true <-> code e = NumCode n.
Proof.
  unfold code_is. destruct (code e) as [| m | s].
  - split; discriminate.
  - rewrite Z.eqb_eq. split; [now intros -> | now intros [= ->]].
  - split; discriminate.
Qed.

(** C4: when the duplicate check finds nothing and the insert fails with
    error [e], [createEtudiant] answers 400.  If the code of [e] is the
    number 11000, the message is the duplicate-email one and no error text
    is given.  If the code of [e] is anything else (no code, a string,
    another number), the message is the generic one and the [error] key
    carries the text of [e] as it is. *)
Theorem create_insert_fails (db : Type) (store : Store db) (req : request)
    (d d1 d2 : db) (e : error) :
  exec (FindOne (name_filter (b_nom (body req)) (b_prenom (body req)))) d
  = (d1, Resolved None) ->
  exec (Create (body req)) d1 = (d2, Rejected e) ->
  (code e = NumCode 11000 ->
   run (createEtudiant req) d
   = (d2, Done (Http.mkResponse 400
                  (Http.mkEnvelope false (Some "Cet email existe déjà") None
                     None None None None None None None))))
  /\ (code e <> NumCode 11000 ->
      run (createEtudiant req) d
      = (d2, Done (Http.mkResponse 400
                     (Http.mkEnvelope false (Some "Données invalides") None
                        None None None None None None (Some (message e)))))).
Proof.
  intros Hfind Hcreate. unfold createEtudiant. cbn.
  rewrite Hfind. cbn. rewrite Hcreate. cbn.
  destruct (code_is 11000 e) eqn:Hcode.
  - apply code_is_spec in Hcode. split; [reflexivity | congruence].
  - split; [| reflexivity].
    intros Heq. apply code_is_spec in Heq. congruence.
Qed.

Lemma create_insert_fails_witness :
  let duplicate :=
    post_request (mkFields (Some "Dupont") (Some "Jeanne")
                    (Some "jean@x.com") None None None None) in
  let other := mkError (NumCode 121) "Document failed validation" in
  run_mem sample_schema (createEtudiant duplicate) sample_docs
  = (sample_docs,
     Done (Http.mkResponse 400
             (Http.mkEnvelope false (Some "Cet email existe déjà") None
                None None None None None None None)))
  /\ run_mem (rejecting_schema other) (createEtudiant duplicate) sample_docs
     = (sample_docs,
        Done (Http.mkResponse 400
                (Http.mkEnvelope false (Some "Données invalides") None
                   None None None None None None
                   (Some "Document failed validation")))).
Proof.
  intros duplicate other. split.
  - apply (proj1 (create_insert_fails (list etudiant)
                    (mem_exec sample_schema) duplicate
                    sample_docs sample_docs sample_docs duplicate_key_error
                    eq_refl eq_refl)).
    reflexivity.
  - apply (proj2 (create_insert_fails (list etudiant)
                    (mem_exec (rejecting_schema other)) duplicate
                    sample_docs sample_docs sample_docs other
                    eq_refl eq_refl)).
    discriminate.
Defined.

(** ** The duplicate check on (nom, prenom) (C3) *)

Lemma matches_name_filter {eng : RegExp.Engine} (n p : string) (d : etudiant) :
  matches (name_filter (Some n) (Some p)) d
  = String.eqb (prenom d) p && String.eqb (nom d) n.
Proof.
  unfold name_filter. rewrite matches_insert by reflexivity.
  rewrite matches_singleton. reflexivity.
Qed.

Lemma castable_name_filter (n p : option string) :
  castable (name_filter n p) = true.
Proof.
  unfold name_filter. rewrite castable_insert by reflexivity.
  rewrite castable_singleton. reflexivity.
Qed.

Lemma find_In_some {A : Type} (f : A -> bool) (l : list A) (x : A) :
  In x l -> f x = true -> exists y, List.find f l = Some y.
Proof.
  intros Hin Hfx. destruct (List.find f l) as [y |] eqn:Hfind.
  - now exists y.
  - pose proof (List.find_none f l Hfind x Hin) as Hfalse. congruence.
Qed.

(** C3: when the (nom, prenom) pair of the body is that of a stored
    record, whatever its email and its [actif] flag, [createEtudiant]
    answers 400 with the duplicate-name message, the store is left as it
    was, and the lookup is the only call made: nothing is inserted. *)
Theorem create_duplicate_name {eng : RegExp.Engine}
    (sch : schema) (docs : list etudiant)
    (req : request) (d : etudiant) :
  In d docs ->
  b_nom (body req) = Some (nom d) ->
  b_prenom (body req) = Some (prenom d) ->
  run_mem sch (createEtudiant req) docs
  = (docs,
     Done (Http.mkResponse 400
             (Http.mkEnvelope false
                (Some "Un étudiant avec ce nom et ce prénom existe déjà")
                None None None None None None None None)))
  /\ @calls (list etudiant) (mem_exec sch) _ (createEtudiant req) docs = 1%nat.
Proof.
  intros Hin Hnom Hprenom.
  assert (Hfound : exists y,
             List.find (matches (name_filter (Some (nom d)) (Some (prenom d))))
                       docs = Some y).
  { apply (find_In_some _ docs d Hin).
    rewrite matches_name_filter. now rewrite !String.eqb_refl. }
  destruct Hfound as [y Hy].
  unfold run_mem, createEtudiant. cbn.
  rewrite Hnom, Hprenom.
  unfold mem_findOne. rewrite castable_name_filter, Hy. cbn.
  split; reflexivity.
Qed.

Lemma create_duplicate_name_witness :
  run_mem sample_schema
    (createEtudiant
       (post_request (mkFields (Some "Marechal") (Some "Marie")
                        (Some "autre@x.com") None None None None)))
    sample_docs
  = (sample_docs,
     Done (Http.mkResponse 400
             (Http.mkEnvelope false
                (Some "Un étudiant avec ce nom et ce prénom existe déjà")
                None None None None None None None None))).
Proof.
  apply (create_duplicate_name sample_schema sample_docs
           (post_request (mkFields (Some "Marechal") (Some "Marie")
                            (Some "autre@x.com") None None None None))
           marechal).
  - cbn. right. right. left. reflexivity.
  - reflexivity.
  - reflexivity.
Defined.

(** ** Students of a programme (C8) *)

Lemma matches_filiere {eng : RegExp.Engine} (v : string) (d : etudiant) :
  matches {[ "filiere" := Field (Equals (Str v)) ]} d
  = String.eqb (filiere d) v.
Proof. rewrite matches_singleton. reflexivity. Qed.

Lemma filter_ext_eq {A : Type} (f g : A -> bool) (l : list A) :
  (forall x, f x = g x) -> List.filter f l = List.filter g l.
Proof.
  intros Hfg. induction l as [| x l IH]; cbn; [reflexivity |].
  rewrite Hfg, IH. reflexivity.
Qed.

(** C8: for every programme value [v], [getEtudiantsByFiliere] answers 200
    with exactly the stored records whose [filiere] is [v], in the order
    of the store, active or not; [count] is their number and the value is
    echoed. *)
Theorem byFiliere_all_matching {eng : RegExp.Engine}
    (sch : schema) (docs : list etudiant)
    (req : request) (v : string) :
  params req !! "filiere" = Some v ->
  let found := List.filter (fun d => String.eqb (filiere d) v) docs in
  run_mem sch (getEtudiantsByFiliere req) docs
  = (docs,
     Done (Http.mkResponse 200
             (Http.mkEnvelope true None (Some (length found)) (Some v)
                None None None None (Some (Http.Many found)) None)))
  /\ (forall d : etudiant, In d found <-> In d docs /\ filiere d = v).
Proof.
  intros Hv found. split.
  - unfold run_mem, getEtudiantsByFiliere. cbn. rewrite Hv. cbn.
    unfold mem_find. rewrite castable_singleton. cbn.
    rewrite sort_by_empty.
    rewrite (filter_ext_eq _ (fun d => String.eqb (filiere d) v))
      by apply matches_filiere.
    reflexivity.
  - intros d. unfold found. rewrite List.filter_In, String.eqb_eq.
    reflexivity.
Qed.

Lemma byFiliere_all_matching_witness :
  run_mem sample_schema
    (getEtudiantsByFiliere (get_request [("filiere", "CS")] [])) sample_docs
  = (sample_docs,
     Done (Http.mkResponse 200
             (Http.mkEnvelope true None (Some 2%nat) (Some "CS")
                None None None None (Some (Http.Many [dupont; marechal]))
                None)))
  /\ actif marechal = false.
Proof.
  split; [| reflexivity].
  apply (byFiliere_all_matching sample_schema sample_docs
           (get_request [("filiere", "CS")] []) "CS").
  vm_compute. reflexivity.
Defined.

(** ** Soft delete (C7) *)

Lemma has_id_apply_update (i : string) (u : fields) (d : etudiant) :
  has_id i (apply_update u d) = has_id i d.
Proof. reflexivity. Qed.

Lemma find_replace_by_id (i : string) (d' : etudiant) (docs : list etudiant) :
  has_id i d' = true ->
  is_Some (List.find (has_id i) docs) ->
  List.find (has_id i) (replace_by_id i d' docs) = Some d'.
Proof.
  intros Hd'. induction docs as [| x docs IH]; cbn.
  - intros [y Hy]. discriminate.
  - destruct (has_id i x) eqn:Hx; cbn.
    + intros _. now rewrite Hd'.
    + intros Hsome. rewrite Hx. now apply IH.
Qed.

Lemma replace_by_id_twice (i : string) (d' : etudiant)
    (docs : list etudiant) :
  has_id i d' = true ->
  replace_by_id i d' (replace_by_id i d' docs) = replace_by_id i d' docs.
Proof.
  intros Hd'. induction docs as [| x docs IH]; cbn; [reflexivity |].
  destruct (has_id i x) eqn:Hx; cbn.
  - now rewrite Hd'.
  - now rewrite Hx, IH.
Qed.

Lemma delete_found {eng : RegExp.Engine}
    (sch : schema) (docs : list etudiant) (req : request)
    (i : string) (d : etudiant) :
  params req !! "id" = Some i ->
  valid_id sch i = true ->
  List.find (has_id i) docs = Some d ->
  run_mem sch (deleteEtudiant req) docs
  = (replace_by_id i (apply_update deactivate d) docs,
     Done (Http.mkResponse 200
             (Http.mkEnvelope true (Some "Étudiant désactivé avec succès")
                None None None None None None
                (Some (Http.One (apply_update deactivate d))) None))).
Proof.
  intros Hid Hvalid Hfind.
  unfold run_mem, deleteEtudiant. cbn. rewrite Hid. cbn.
  rewrite Hvalid. cbn. rewrite Hfind. reflexivity.
Qed.

(** C7: for an identifier bound to a stored record, [deleteEtudiant]
    answers 200 with the record in which [actif] is false, whatever the
    flag was; a second call on the resulting store answers the same and
    leaves that store as it is. *)
Theorem softDelete_idempotent {eng : RegExp.Engine}
    (sch : schema) (docs : list etudiant)
    (req : request) (i : string) (d : etudiant) :
  params req !! "id" = Some i ->
  valid_id sch i = true ->
  List.find (has_id i) docs = Some d ->
  let d' := apply_update deactivate d in
  let docs' := replace_by_id i d' docs in
  let ok :=
    Http.mkResponse 200
      (Http.mkEnvelope true (Some "Étudiant désactivé avec succès")
         None None None None None None (Some (Http.One d')) None) in
  actif d' = false
  /\ run_mem sch (deleteEtudiant req) docs = (docs', Done ok)
  /\ run_mem sch (deleteEtudiant req) docs' = (docs', Done ok).
Proof.
  intros Hid Hvalid Hfind d' docs' ok.
  assert (Hd' : has_id i d' = true).
  { unfold d'. rewrite has_id_apply_update.
    now destruct (List.find_some _ _ Hfind). }
  split; [reflexivity |]. split.
  - now apply delete_found.
  - assert (Hfind' : List.find (has_id i) docs' = Some d').
    { apply find_replace_by_id; [exact Hd' | now rewrite Hfind]. }
    rewrite (delete_found sch docs' req i d' Hid Hvalid Hfind').
    change (apply_update deactivate d') with d'.
    unfold docs'. rewrite replace_by_id_twice by exact Hd'.
    reflexivity.
Qed.

Lemma softDelete_idempotent_witness :
  let req := get_request [("id", sample_id 1)] [] in
  let d' := apply_update deactivate martin in
  let docs' := [dupont; d'; marechal] in
  let ok :=
    Http.mkResponse 200
      (Http.mkEnvelope true (Some "Étudiant désactivé avec succès")
         None None None None None None (Some (Http.One d')) None) in
  actif d' = false
  /\ run_mem sample_schema (deleteEtudiant req) sample_docs = (docs', Done ok)
  /\ run_mem sample_schema (deleteEtudiant req) docs' = (docs', Done ok).
Proof.
  apply (softDelete_idempotent sample_schema sample_docs
           (get_request [("id", sample_id 1)] []) (sample_id 1) martin).
  - vm_compute. reflexivity.
  - vm_compute. reflexivity.
  - vm_compute. reflexivity.
Defined.

(** ** Sorting (C6) *)

Section SortFacts.
Context {A : Type} (leb : A -> A -> bool).
Hypothesis leb_total : forall x y, leb x y = false -> leb y x = true.

Let le (x y : A) : Prop := leb x y = true.

Lemma insert_sorted_permutation (x : A) (l : list A) :
  Permutation (x :: l) (insert_sorted leb x l).
Proof.
  induction l as [| y l IH]; cbn.
  - apply Permutation_refl.
  - destruct (leb x y).
    + apply Permutation_refl.
    + eapply perm_trans; [apply perm_swap |]. now apply perm_skip.
Qed.

Lemma stable_sort_permutation (l : list A) :
  Permutation (stable_sort leb l) l.
Proof.
  induction l as [| x l IH]; cbn.
  - apply perm_nil.
  - eapply perm_trans.
    + apply Permutation_sym, insert_sorted_permutation.
    + now apply perm_skip.
Qed.

Lemma insert_sorted_HdRel (a x : A) (l : list A) :
  le a x -> HdRel le a l -> HdRel le a (insert_sorted leb x l).
Proof.
  intros Hax Hl. destruct l as [| y l]; cbn.
  - now constructor.
  - destruct (leb x y); constructor; [exact Hax |].
    now apply HdRel_inv in Hl.
Qed.

Lemma insert_sorted_Sorted (x : A) (l : list A) :
  Sorted le l -> Sorted le (insert_sorted leb x l).
Proof.
  induction 1 as [| y l Hsorted IH Hhd]; cbn.
  - repeat constructor.
  - destruct (leb x y) eqn:Hxy.
    + constructor; [now constructor |]. now constructor.
    + constructor; [exact IH |].
      apply insert_sorted_HdRel; [| exact Hhd].
      now apply leb_total.
Qed.

Lemma stable_sort_Sorted (l : list A) : Sorted le (stable_sort leb l).
Proof.
  induction l as [| x l IH]; cbn.
  - constructor.
  - now apply insert_sorted_Sorted.
Qed.
End SortFacts.

Lemma Sorted_trivial {A : Type} (R : A -> A -> Prop) (l : list A) :
  (forall a b, R a b) -> Sorted R l.
Proof.
  intros HR. induction l as [| x l IH]; constructor; [exact IH |].
  destruct l; constructor. apply HR.
Qed.

Lemma field_leb_total (k : string) (a b : etudiant) :
  field_leb k a b = false -> field_leb k b a = true.
Proof.
  unfold field_leb.
  destruct (get_field k a) as [[x | x | x] |],
           (get_field k b) as [[y | y | y] |]; try discriminate; try reflexivity.
  - intros Hxy. destruct (String.leb_total x y) as [H | H]; congruence.
  - intros Hxy. apply Qle_bool_iff.
    destruct (Qlt_le_dec y x) as [Hlt | Hle].
    + apply Qlt_le_weak in Hlt. exact Hlt.
    + apply Qle_bool_iff in Hle. congruence.
  - destruct x, y; cbn; congruence.
Qed.

Lemma key_leb_total (k : string) (dir : Z) (a b : etudiant) :
  key_leb k dir a b = false -> key_leb k dir b a = true.
Proof. unfold key_leb. destruct (dir =? -1)%Z; apply field_leb_total. Qed.

Lemma filter_actif {eng : RegExp.Engine} (docs : list etudiant) :
  List.filter (matches (actif_is true)) docs = List.filter actif docs.
Proof.
  apply filter_ext_eq. intros d. rewrite matches_actif.
  now destruct (actif d).
Qed.

Lemma sortOptions_of_key (k : string) (order : option string) :
  k <> "" -> k <> "__proto__" ->
  sortOptions_of (Some k) order
  = {[ k := if strict_eq order "desc" then (-1)%Z else 1%Z ]}.
Proof.
  intros Hk Hproto. unfold sortOptions_of, JS.set_property. cbn.
  apply String.eqb_neq in Hk, Hproto. rewrite Hk, Hproto. cbn.
  apply insert_empty.
Qed.

(** The records [sort_by] returns for the options of [getEtudiantsSorted]
    are those given, ordered on the field in the direction asked for. *)
Lemma sort_by_sortOptions (k : string) (order : option string)
    (l : list etudiant) :
  Permutation (sort_by (sortOptions_of (Some k) order) l) l
  /\ if strict_eq order "desc"
     then Sorted (fun a b => field_leb k b a = true)
                 (sort_by (sortOptions_of (Some k) order) l)
     else Sorted (fun a b => field_leb k a b = true)
                 (sort_by (sortOptions_of (Some k) order) l).
Proof.
  destruct (String.eqb k "") eqn:Hempty.
  { apply String.eqb_eq in Hempty. subst k.
    unfold sortOptions_of. cbn. rewrite sort_by_empty.
    split; [apply Permutation_refl |].
    destruct (strict_eq order "desc"); now apply Sorted_trivial. }
  destruct (String.eqb k "__proto__") eqn:Hproto.
  { apply String.eqb_eq in Hproto. subst k.
    unfold sortOptions_of, JS.set_property. cbn. rewrite sort_by_empty.
    split; [apply Permutation_refl |].
    destruct (strict_eq order "desc"); now apply Sorted_trivial. }
  apply String.eqb_neq in Hempty, Hproto.
  rewrite sortOptions_of_key by assumption.
  rewrite sort_by_singleton. split.
  - apply stable_sort_permutation.
  - destruct (strict_eq order "desc").
    + apply (stable_sort_Sorted (key_leb k (-1))). apply key_leb_total.
    + apply (stable_sort_Sorted (key_leb k 1)). apply key_leb_total.
Qed.

Lemma strict_eq_spec (v : option string) (s : string) :
  strict_eq v s = true <-> v = Some s.
Proof.
  unfold strict_eq. destruct v as [x |].
  - rewrite String.eqb_eq. split; [now intros -> | now intros [= ->]].
  - split; discriminate.
Qed.

(** C6: [getEtudiantsSorted] answers 200 with the active records.  When
    [sortBy] is present they are ordered on that field: descending, with
    the sort key at -1, when [order] is exactly [desc]; ascending, with
    the sort key at 1, when [order] is anything else, absent included.
    When [sortBy] is absent the sort options are empty and the records come
    in the order of the store. *)
Theorem sorted_by_field {eng : RegExp.Engine} (sch : schema)
    (docs : list etudiant) (req : request) :
  let sortBy := query req !! "sortBy" in
  let order := query req !! "order" in
  exists l : list etudiant,
    run_mem sch (getEtudiantsSorted req) docs
    = (docs,
       Done (Http.mkResponse 200
               (Http.mkEnvelope true None (Some (length l)) None None None
                  sortBy order (Some (Http.Many l)) None)))
    /\ Permutation l (List.filter actif docs)
    /\ (forall k : string, sortBy = Some k ->
          (order = Some "desc" ->
           Sorted (fun a b => field_leb k b a = true) l
           /\ (k <> "" -> k <> "__proto__" ->
               sortOptions_of sortBy order = {[ k := (-1)%Z ]}))
          /\ (order <> Some "desc" ->
              Sorted (fun a b => field_leb k a b = true) l
              /\ (k <> "" -> k <> "__proto__" ->
                  sortOptions_of sortBy order = {[ k := 1%Z ]})))
    /\ (sortBy = None ->
          sortOptions_of sortBy order = ∅ /\ l = List.filter actif docs).
Proof.
  intros sortBy order.
  exists (sort_by (sortOptions_of sortBy order) (List.filter actif docs)).
  split; [| split; [| split]].
  - unfold run_mem, getEtudiantsSorted. cbn.
    unfold mem_find. unfold actif_is at 1. rewrite castable_singleton. cbn.
    rewrite filter_actif. reflexivity.
  - destruct sortBy as [k |].
    + apply sort_by_sortOptions.
    + unfold sortOptions_of. cbn. rewrite sort_by_empty.
      apply Permutation_refl.
  - intros k Hk. rewrite Hk.
    pose proof (proj2 (sort_by_sortOptions k order
                         (List.filter actif docs))) as Hsorted.
    pose proof (sortOptions_of_key k order) as Hkey.
    destruct (strict_eq order "desc") eqn:Horder.
    + apply strict_eq_spec in Horder. split; [auto | congruence].
    + split; [| auto].
      intros Hdesc. apply strict_eq_spec in Hdesc. congruence.
  - intros Hnone. rewrite Hnone. unfold sortOptions_of. cbn.
    rewrite sort_by_empty. split; reflexivity.
Qed.

Lemma sorted_by_field_witness :
  (exists l : list etudiant,
     run_mem sample_schema
       (getEtudiantsSorted
          (get_request [] [("sortBy", "moyenne"); ("order", "desc")]))
       sample_docs
     = (sample_docs,
        Done (Http.mkResponse 200
                (Http.mkEnvelope true None (Some (length l)) None None None
                   (Some "moyenne") (Some "desc") (Some (Http.Many l))
                   None)))
     /\ Sorted (fun a b => field_leb "moyenne" b a = true) l
     /\ l = [martin; dupont])
  /\ (exists l : list etudiant,
        run_mem sample_schema
          (getEtudiantsSorted
             (get_request [] [("sortBy", "moyenne"); ("order", "DESC")]))
          sample_docs
        = (sample_docs,
           Done (Http.mkResponse 200
                   (Http.mkEnvelope true None (Some (length l)) None None
                      None (Some "moyenne") (Some "DESC")
                      (Some (Http.Many l)) None)))
        /\ Sorted (fun a b => field_leb "moyenne" a b = true) l
        /\ l = [dupont; martin]).
Proof.
  split.
  - destruct (sorted_by_field sample_schema sample_docs
                (get_request [] [("sortBy", "moyenne"); ("order", "desc")]))
      as (l & Hrun & _ & Hsorted & _).
    exists l. split; [exact Hrun |]. split.
    + exact (proj1 (proj1 (Hsorted "moyenne" eq_refl) eq_refl)).
    + vm_compute in Hrun. now injection Hrun.
  - destruct (sorted_by_field sample_schema sample_docs
                (get_request [] [("sortBy", "moyenne"); ("order", "DESC")]))
      as (l & Hrun & _ & Hsorted & _).
    exists l. split; [exact Hrun |]. split.
    + refine (proj1 (proj2 (Hsorted "moyenne" eq_refl) _)). discriminate.
    + vm_compute in Hrun. now injection Hrun.
Defined.

(** ** Patterns of ordinary characters *)

Lemma classify_plain (c : ascii) :
  metachar c = false -> RegExp.classify c = RegExp.TChar.
Proof.
  destruct c as [[] [] [] [] [] [] [] []]; cbn; intros H;
    first [reflexivity | discriminate H].
Qed.

Lemma parse_plain (cs : list ascii) (f : RegExp.frame)
    (stack : list RegExp.frame) :
  forallb (fun c => negb (metachar c)) cs = true ->
  RegExp.parse cs f stack = RegExp.parse [] (push_chars cs f) stack.
Proof.
  revert f. induction cs as [| c cs IH]; intros f Hcs.
  - reflexivity.
  - cbn [forallb] in Hcs. apply andb_prop in Hcs as [Hc Hcs].
    apply negb_true_iff in Hc.
    cbn [RegExp.parse]. rewrite (classify_plain c Hc).
    rewrite IH by exact Hcs. reflexivity.
Qed.

Lemma push_chars_frame (cs : list ascii) (f : RegExp.frame) :
  RegExp.alts (push_chars cs f) = RegExp.alts f
  /\ RegExp.terms (push_chars cs f)
     = rev (map RegExp.Chr cs) ++ RegExp.terms f.
Proof.
  revert f. induction cs as [| c cs IH]; intros f; cbn.
  - split; reflexivity.
  - destruct (IH (RegExp.push_atom (RegExp.Chr c) f)) as [Ha Ht].
    unfold push_chars in Ha, Ht. rewrite Ha, Ht. cbn.
    split; [reflexivity |]. now rewrite <- app_assoc.
Qed.

Lemma seq_of_rev_chars (cs : list ascii) :
  RegExp.seq_of (rev (map RegExp.Chr cs)) = literal cs.
Proof.
  unfold RegExp.seq_of, literal.
  rewrite <- (fold_left_rev_right
                (fun (t : RegExp.regex) acc => RegExp.Seq t acc)).
  rewrite rev_involutive.
  induction cs as [| c cs IH]; cbn; [reflexivity | now rewrite IH].
Qed.

Lemma compile_plain (q : string) :
  plain q = true ->
  RegExp.compile q = RegExp.Compiled (literal (list_ascii_of_string q)).
Proof.
  intros Hq. unfold RegExp.compile.
  rewrite parse_plain by exact Hq. cbn [RegExp.parse].
  destruct (push_chars_frame (list_ascii_of_string q) RegExp.empty_frame)
    as [Ha Ht].
  unfold RegExp.close. rewrite Ha, Ht. cbn [RegExp.empty_frame RegExp.alts
    RegExp.terms fold_left]. rewrite app_nil_r.
  now rewrite seq_of_rev_chars.
Qed.

Lemma ends_literal (cs : list ascii) (i : nat) (s : list ascii) :
  RegExp.ends true (literal cs) (i, s)
  = if prefix_ci cs s
    then [((i + length cs)%nat, skipn (length cs) s)]
    else [].
Proof.
  revert i s. induction cs as [| c cs IH]; intros i s.
  - cbn. now rewrite Nat.add_0_r.
  - cbn [literal fold_right RegExp.ends]. fold (literal cs).
    destruct s as [| x s]; [reflexivity |].
    cbn [snd fst prefix_ci]. destruct (RegExp.same_char true x c); cbn.
    + rewrite IH, app_nil_r.
      destruct (prefix_ci cs s); [| reflexivity].
      now rewrite Nat.add_succ_r.
    + reflexivity.
Qed.

Lemma matches_at_literal (cs : list ascii) (i : nat) (s : list ascii) :
  RegExp.matches_at true (literal cs) (i, s) = prefix_ci cs s.
Proof.
  unfold RegExp.matches_at. rewrite ends_literal.
  now destruct (prefix_ci cs s).
Qed.

Lemma search_literal (cs s : list ascii) :
  RegExp.search true (literal cs) s = occurs_ci cs s.
Proof.
  unfold RegExp.search. generalize 0%nat as i.
  induction s as [| x s IH]; intros i; cbn [RegExp.positions_from existsb].
  - rewrite matches_at_literal. reflexivity.
  - rewrite matches_at_literal, IH. reflexivity.
Qed.

Lemma prefix_ci_spec (cs s : list ascii) :
  prefix_ci cs s = true <->
  exists post, map RegExp.canonicalize s = map RegExp.canonicalize cs ++ post.
Proof.
  revert s. induction cs as [| c cs IH]; intros s; cbn.
  - split; [intros _; now eexists | reflexivity].
  - destruct s as [| x s]; cbn.
    + split; [discriminate | intros [post H]; discriminate H].
    + rewrite andb_true_iff, IH, Ascii.eqb_eq. split.
      * intros [Hx [post Hpost]]. exists post. now rewrite Hx, Hpost.
      * intros [post Hpost]. injection Hpost as Hx Hs. split; eauto.
Qed.

Lemma occurs_ci_spec (cs s : list ascii) :
  occurs_ci cs s = true <->
  exists pre post,
    map RegExp.canonicalize s = pre ++ map RegExp.canonicalize cs ++ post.
Proof.
  induction s as [| x s IH]; cbn [occurs_ci]; rewrite orb_true_iff.
  - rewrite prefix_ci_spec. split.
    + intros [[post H] | H]; [| discriminate H]. now exists [], post.
    + intros [pre [post H]]. left.
      destruct pre as [| p pre]; [now exists post | discriminate H].
  - rewrite prefix_ci_spec, IH. split.
    + intros [[post H] | [pre [post H]]].
      * now exists [], post.
      * exists (RegExp.canonicalize x :: pre), post. cbn. now rewrite H.
    + intros [pre [post H]]. destruct pre as [| p pre].
      * left. now exists post.
      * right. cbn in H. injection H as _ H. now exists pre, post.
Qed.

Lemma substring_ci_occurs (q s : string) :
  substring_ci q s <->
  occurs_ci (list_ascii_of_string q) (list_ascii_of_string s) = true.
Proof. unfold substring_ci, fold_case. now rewrite occurs_ci_spec. Qed.

Lemma construct_plain {eng : RegExp.Engine} (q : string) :
  plain q = true ->
  RegExp.construct (Some q) "i"
  = RegExp.Built
      (RegExp.mkRegExp q "i" (Some (literal (list_ascii_of_string q)))).
Proof.
  intros Hq. unfold RegExp.construct.
  change (default "" (Some q)) with q. cbv zeta.
  rewrite (compile_plain q Hq). reflexivity.
Qed.

Lemma test_literal {eng : RegExp.Engine} (q s : string) :
  RegExp.test
    (RegExp.mkRegExp q "i" (Some (literal (list_ascii_of_string q)))) s
  = occurs_ci (list_ascii_of_string q) (list_ascii_of_string s).
Proof.
  unfold RegExp.test, RegExp.ignoreCase.
  cbn [RegExp.ast RegExp.flags]. change (String.eqb "i" "i") with true.
  apply search_literal.
Qed.

(** For a pattern of ordinary characters, the regular expression built
    with the flag [i] tests for a literal, case-folded substring. *)
Lemma test_plain {eng : RegExp.Engine} (q : string) :
  plain q = true ->
  exists re : RegExp.regexp,
    RegExp.construct (Some q) "i" = RegExp.Built re
    /\ forall s : string, RegExp.test re s = true <-> substring_ci q s.
Proof.
  intros Hq. eexists. split; [now apply construct_plain |].
  intros s. rewrite test_literal. symmetry. apply substring_ci_occurs.
Qed.

(** An unclosed group is refused whatever the engine. *)
Lemma construct_unterminated {eng : RegExp.Engine} :
  RegExp.construct (Some "(") "i" = RegExp.Failed "Unterminated group".
Proof. reflexivity. Qed.

(** ** Search by name (C2) *)

Lemma clause_matches_regex {eng : RegExp.Engine}
    (k : string) (re : RegExp.regexp) (d : etudiant) :
  clause_matches {[ k := Matches re ]} d
  = satisfies (Matches re) (get_field k d).
Proof. unfold clause_matches. now rewrite forallb_map_singleton. Qed.

Lemma matches_search_filter {eng : RegExp.Engine}
    (re : RegExp.regexp) (d : etudiant) :
  matches (search_filter re) d
  = (RegExp.test re (nom d) || RegExp.test re (prenom d)) && actif d.
Proof.
  unfold search_filter. rewrite matches_insert by reflexivity.
  rewrite matches_actif. unfold entry_matches. cbn [snd fst existsb].
  rewrite !clause_matches_regex. cbn. rewrite orb_false_r.
  now destruct (actif d).
Qed.

Lemma castable_search_filter (re : RegExp.regexp) :
  castable (search_filter re) = true.
Proof.
  unfold search_filter. rewrite castable_insert by reflexivity.
  unfold actif_is. rewrite castable_singleton. reflexivity.
Qed.

Lemma truthy_nonempty (s : string) : s <> "" -> JS.truthy (Some s) = true.
Proof. intros Hs. cbn. apply String.eqb_neq in Hs. now rewrite Hs. Qed.

Lemma new_RegExp_built {eng : RegExp.Engine} (pattern : option string)
    (flags : string) (re : RegExp.regexp) :
  RegExp.construct pattern flags = RegExp.Built re ->
  new_RegExp pattern flags = Ret re.
Proof. intros Hre. unfold new_RegExp. now rewrite Hre. Qed.

Lemma new_RegExp_failed {eng : RegExp.Engine} (pattern : option string)
    (flags reason : string) :
  RegExp.construct pattern flags = RegExp.Failed reason ->
  new_RegExp pattern flags
  = Throw (syntax_error (default "" pattern) flags reason).
Proof. intros Hre. unfold new_RegExp. now rewrite Hre. Qed.

Lemma search_built {eng : RegExp.Engine} (sch : schema)
    (docs : list etudiant) (req : request) (q : string)
    (re : RegExp.regexp) :
  query req !! "q" = Some q -> q <> "" ->
  RegExp.construct (Some q) "i" = RegExp.Built re ->
  run_mem sch (searchEtudiants req) docs
  = (docs,
     Done (search_found q
             (List.filter
                (fun d =>
                   (RegExp.test re (nom d) || RegExp.test re (prenom d))
                   && actif d) docs))).
Proof.
  intros Hq Hne Hre. unfold run_mem, searchEtudiants.
  rewrite Hq, (truthy_nonempty q Hne), (new_RegExp_built _ _ re Hre).
  cbn -[search_filter matches castable sort_by].
  unfold mem_find. rewrite castable_search_filter, sort_by_empty.
  rewrite (filter_ext_eq _ _ docs (matches_search_filter re)).
  reflexivity.
Qed.

Lemma search_failed {eng : RegExp.Engine} (sch : schema)
    (docs : list etudiant) (req : request) (q reason : string) :
  query req !! "q" = Some q -> q <> "" ->
  RegExp.construct (Some q) "i" = RegExp.Failed reason ->
  run_mem sch (searchEtudiants req) docs
  = (docs, Done (server_error_response (syntax_error q "i" reason)))
  /\ @calls (list etudiant) (mem_exec sch) _ (searchEtudiants req) docs
     = 0%nat.
Proof.
  intros Hq Hne Hre. unfold run_mem, searchEtudiants.
  rewrite Hq, (truthy_nonempty q Hne), (new_RegExp_failed _ _ reason Hre).
  split; reflexivity.
Qed.

(** C2, as the code has it: for a present, non-empty [q],
    [searchEtudiants] uses [q] as the source of a case-insensitive regular
    expression.  When [new RegExp(q, 'i')] returns an expression, the
    answer is 200 with the active records whose [nom] or [prenom] the
    expression matches, in the order of the store.  When it throws, [q]
    not being a valid pattern, the answer is 500 and no call is made to the
    store.  When [q] holds no character with a meaning of its own in a
    pattern, the records returned are exactly the active records with [q]
    as a literal, case-folded substring of [nom] or [prenom]. *)
Theorem search_by_regex {eng : RegExp.Engine} (sch : schema)
    (docs : list etudiant) (req : request) (q : string) :
  query req !! "q" = Some q ->
  q <> "" ->
  run_mem sch (searchEtudiants req) docs
  = (docs,
     Done match RegExp.construct (Some q) "i" with
          | RegExp.Built re =>
              search_found q
                (List.filter
                   (fun d =>
                      (RegExp.test re (nom d) || RegExp.test re (prenom d))
                      && actif d) docs)
          | RegExp.Failed reason =>
              server_error_response (syntax_error q "i" reason)
          end)
  /\ (forall reason : string,
        RegExp.construct (Some q) "i" = RegExp.Failed reason ->
        @calls (list etudiant) (mem_exec sch) _ (searchEtudiants req) docs
        = 0%nat)
  /\ (plain q = true ->
      exists found : list etudiant,
        run_mem sch (searchEtudiants req) docs
        = (docs, Done (search_found q found))
        /\ search_as_specified q docs found).
Proof.
  intros Hq Hne. split; [| split].
  - destruct (RegExp.construct (Some q) "i") as [re | reason] eqn:Hre.
    + now apply search_built.
    + now apply search_failed.
  - intros reason Hre. now apply (search_failed sch docs req q reason).
  - intros Hplain. destruct (test_plain q Hplain) as [re [Hre Htest]].
    eexists. split; [now apply (search_built sch docs req q re) |].
    intros d. rewrite List.filter_In, andb_true_iff, orb_true_iff, !Htest.
    tauto.
Qed.

Lemma search_by_regex_witness :
  exists found : list etudiant,
    run_mem sample_schema (searchEtudiants (get_request [] [("q", "mar")]))
            sample_docs
    = (sample_docs, Done (search_found "mar" found))
    /\ search_as_specified "mar" sample_docs found.
Proof.
  apply (search_by_regex sample_schema sample_docs
           (get_request [] [("q", "mar")]) "mar").
  - vm_compute. reflexivity.
  - discriminate.
  - vm_compute. reflexivity.
Defined.

(** C2, refuted as stated: with [q] the single character [.], the
    search answers with Dupont and Martin, though [.] is a substring of
    neither name: the records returned are not those the specification
    describes. *)
Lemma search_dot_is_not_literal :
  run_mem sample_schema (searchEtudiants (get_request [] [("q", ".")]))
          sample_docs
  = (sample_docs, Done (search_found "." [dupont; martin]))
  /\ ~ search_as_specified "." sample_docs [dupont; martin].
Proof.
  split; [vm_compute; reflexivity |].
  intros Hspec. destruct (Hspec dupont) as [Hin _].
  destruct Hin as (_ & _ & [Hsub | Hsub]); [now left | |];
    apply substring_ci_occurs in Hsub; vm_compute in Hsub; discriminate Hsub.
Qed.

(** ** Numbers read from the query string *)

(** [parseInt] and [parseFloat] give the nearest binary64: an integer
    beyond [2^53] loses its last bit, digits below the precision are
    dropped, a magnitude beyond the range is [Infinity]. *)
Example parseInt_rounds :
  JS.parseInt "9007199254740993" = JS.Num (inject_Z 9007199254740992).
Proof. vm_compute. reflexivity. Qed.

Example parseFloat_rounds :
  JS.parseFloat "16.0000000000000000001" = JS.Num (inject_Z 16)
  /\ JS.parseFloat "0.1" = JS.Num (3602879701896397 # 36028797018963968)
  /\ JS.parseFloat "1e400" = JS.Infinity
  /\ JS.parseFloat "-1e-400" = JS.Num 0.
Proof. repeat split; vm_compute; reflexivity. Qed.

(** So Martin, whose [moyenne] is 16, passes the bound
    [moyenneMin=16.0000000000000000001]. *)
Example advancedSearch_bound_is_rounded :
  run_mem sample_schema
    (advancedSearch
       (get_request [] [("moyenneMin", "16.0000000000000000001")]))
    sample_docs
  = (sample_docs,
     Done (advanced_found
             (list_to_map [("moyenneMin", "16.0000000000000000001")])
             [martin])).
Proof. vm_compute. reflexivity. Qed.

(** ** The filter of the advanced search (C5) *)

Lemma advancedSearch_filter_without_nom {eng : RegExp.Engine}
    (query : gmap string string) :
  JS.truthy (query !! "nom") = false ->
  advancedSearch_filter query = Ret (advanced_filter None query).
Proof.
  intros Hnom. unfold advancedSearch_filter, advanced_filter.
  rewrite Hnom. reflexivity.
Qed.

Lemma advancedSearch_filter_with_nom {eng : RegExp.Engine}
    (query : gmap string string) (re : RegExp.regexp) :
  JS.truthy (query !! "nom") = true ->
  RegExp.construct (query !! "nom") "i" = RegExp.Built re ->
  advancedSearch_filter query = Ret (advanced_filter (Some re) query).
Proof.
  intros Hnom Hre. unfold advancedSearch_filter, advanced_filter.
  rewrite Hnom, (new_RegExp_built _ _ re Hre). reflexivity.
Qed.

Lemma advancedSearch_filter_failed {eng : RegExp.Engine}
    (query : gmap string string) (reason : string) :
  JS.truthy (query !! "nom") = true ->
  RegExp.construct (query !! "nom") "i" = RegExp.Failed reason ->
  advancedSearch_filter query
  = Throw (syntax_error (default "" (query !! "nom")) "i" reason).
Proof.
  intros Hnom Hre. unfold advancedSearch_filter.
  rewrite Hnom, (new_RegExp_failed _ _ reason Hre). reflexivity.
Qed.

Lemma satisfies_compare_insert {eng : RegExp.Engine}
    (k : string) (b : JS.number)
    (ops : gmap string JS.number) (x : Q) :
  ops !! k = None ->
  satisfies (Compare (<[k := b]> ops)) (Some (FNum x))
  = compare_op x (k, b) && forallb (compare_op x) (map_to_list ops).
Proof.
  intros Hk. cbn [satisfies].
  rewrite <- (forallb_map_insert (compare_op x) k b ops Hk).
  destruct (map_to_list (<[k := b]> ops)) as [| op rest] eqn:Hlist.
  - pose proof (map_to_list_insert ops k b Hk) as Hperm.
    rewrite Hlist in Hperm. apply Permutation_nil in Hperm. discriminate.
  - reflexivity.
Qed.

Lemma satisfies_compare_singleton {eng : RegExp.Engine}
    (k : string) (b : JS.number) (x : Q) :
  satisfies (Compare {[ k := b ]}) (Some (FNum x)) = compare_op x (k, b).
Proof.
  rewrite <- insert_empty.
  rewrite satisfies_compare_insert by apply lookup_empty.
  rewrite map_to_list_empty. cbn. apply andb_true_r.
Qed.

Lemma satisfies_annee_range {eng : RegExp.Engine}
    (anneeMin anneeMax : option string) (x : Q) :
  JS.truthy anneeMin || JS.truthy anneeMax = true ->
  satisfies (Compare (annee_range anneeMin anneeMax)) (Some (FNum x))
  = (if JS.truthy anneeMin
     then JS.num_leb (JS.parseInt (to_string anneeMin)) (JS.Num x)
     else true)
    && (if JS.truthy anneeMax
        then JS.num_leb (JS.Num x) (JS.parseInt (to_string anneeMax))
        else true).
Proof.
  unfold annee_range.
  destruct (JS.truthy anneeMin), (JS.truthy anneeMax); intros H;
    try discriminate H.
  - rewrite satisfies_compare_insert by reflexivity.
    rewrite insert_empty, map_to_list_singleton. cbn.
    rewrite andb_true_r. apply andb_comm.
  - rewrite insert_empty, satisfies_compare_singleton. cbn.
    now rewrite andb_true_r.
  - rewrite insert_empty, satisfies_compare_singleton. reflexivity.
Qed.

Lemma entry_matches_nom {eng : RegExp.Engine}
    (re : RegExp.regexp) (d : etudiant) :
  entry_matches d ("nom", Field (Matches re)) = RegExp.test re (nom d).
Proof. reflexivity. Qed.

Lemma entry_matches_filiere {eng : RegExp.Engine} (v : string) (d : etudiant) :
  entry_matches d ("filiere", Field (Equals (Str v)))
  = String.eqb (filiere d) v.
Proof. reflexivity. Qed.

Lemma entry_matches_annee {eng : RegExp.Engine}
    (ops : gmap string JS.number) (d : etudiant) :
  entry_matches d ("annee", Field (Compare ops))
  = satisfies (Compare ops) (Some (FNum (annee d))).
Proof. reflexivity. Qed.

Lemma entry_matches_moyenne {eng : RegExp.Engine}
    (ops : gmap string JS.number) (d : etudiant) :
  entry_matches d ("moyenne", Field (Compare ops))
  = satisfies (Compare ops) (Some (FNum (moyenne d))).
Proof. reflexivity. Qed.

Ltac split_filter :=
  rewrite ?matches_insert by reflexivity;
  rewrite matches_actif;
  rewrite ?entry_matches_nom, ?entry_matches_filiere, ?entry_matches_annee,
    ?entry_matches_moyenne, ?satisfies_compare_singleton.

(** The filter lets a record pass exactly when each condition it was
    built from holds of the record. *)
Lemma matches_advanced_filter {eng : RegExp.Engine} (re : option RegExp.regexp)
    (query : gmap string string) (d : etudiant) :
  matches (advanced_filter re query) d = passes_b re query d.
Proof.
  unfold advanced_filter, passes_b.
  destruct (query !! "filiere") as [v |];
    cbn [of_param to_string default from_option id];
    destruct (JS.truthy (query !! "moyenneMin"));
    destruct (JS.truthy (query !! "anneeMin")) eqn:Hmin;
    destruct (JS.truthy (query !! "anneeMax")) eqn:Hmax;
    destruct re as [r |];
    try destruct (JS.truthy (Some v));
    cbn [JS.truthy orb];
    split_filter;
    rewrite ?satisfies_annee_range by (rewrite Hmin, Hmax; reflexivity);
    rewrite ?Hmin, ?Hmax;
    cbn [compare_op fst snd String.eqb Ascii.eqb Bool.eqb];
    destruct (actif d); cbn [Bool.eqb]; btauto.
Qed.

Lemma advanced_filter_lookup (re : option RegExp.regexp)
    (query : gmap string string) :
  let f := advanced_filter re query in
  f !! "actif" = Some (Field (Equals (Bool true)))
  /\ f !! "nom" = (fun r => Field (Matches r)) <$> re
  /\ f !! "filiere"
     = (if JS.truthy (query !! "filiere")
        then Some (Field (Equals (of_param (query !! "filiere"))))
        else None)
  /\ f !! "annee"
     = (if JS.truthy (query !! "anneeMin") || JS.truthy (query !! "anneeMax")
        then Some (Field (Compare (annee_range (query !! "anneeMin")
                                               (query !! "anneeMax"))))
        else None)
  /\ f !! "moyenne"
     = (if JS.truthy (query !! "moyenneMin")
        then Some (Field (Compare
               {[ "$gte" := JS.parseFloat (to_string (query !! "moyenneMin")) ]}))
        else None).
Proof.
  unfold advanced_filter.
  destruct re as [r |],
    (JS.truthy (query !! "filiere")),
    (JS.truthy (query !! "anneeMin") || JS.truthy (query !! "anneeMax")),
    (JS.truthy (query !! "moyenneMin"));
    cbn zeta; repeat split; reflexivity.
Qed.

Lemma advanced_filter_keys (re : option RegExp.regexp)
    (query : gmap string string) (k : string) :
  is_Some (advanced_filter re query !! k) <->
  k = "actif"
  \/ (k = "nom" /\ is_Some re)
  \/ (k = "filiere" /\ JS.truthy (query !! "filiere") = true)
  \/ (k = "annee" /\ (JS.truthy (query !! "anneeMin") = true
                      \/ JS.truthy (query !! "anneeMax") = true))
  \/ (k = "moyenne" /\ JS.truthy (query !! "moyenneMin") = true).
Proof.
  unfold advanced_filter, actif_is.
  rewrite <- (orb_true_iff (JS.truthy (query !! "anneeMin"))).
  destruct re as [r |],
    (JS.truthy (query !! "filiere")),
    (JS.truthy (query !! "anneeMin") || JS.truthy (query !! "anneeMax")),
    (JS.truthy (query !! "moyenneMin"));
    cbn zeta;
    rewrite ?lookup_insert_is_Some', lookup_singleton_is_Some;
    (split; [intros H | intros H]);
    repeat match goal with
           | H : _ \/ _ |- _ => destruct H as [H | H]
           | H : _ /\ _ |- _ => destruct H as [? H]
           | H : false = true |- _ => discriminate H
           | H : is_Some None |- _ => destruct H as [? H]; discriminate H
           end;
    subst; auto 10.
Qed.

Lemma when_given_iff (v : option string) (P : string -> Prop) :
  when_given v P <-> (JS.truthy v = true -> P (to_string v)).
Proof.
  unfold when_given. destruct v as [s |]; cbn.
  - rewrite negb_true_iff, String.eqb_neq. split.
    + intros H Hs. now apply H.
    + intros H s' Hs' Hne. injection Hs' as <-. now apply H.
  - split; [discriminate | intros _ s H; discriminate H].
Qed.

Lemma guarded_true_iff (b c : bool) :
  (if b then c else true) = true <-> (b = true -> c = true).
Proof. destruct b, c; cbn; intuition congruence. Qed.

(** When the expression of [nom] tests for a literal substring, the
    conditions of the filter are those of the specification. *)
Lemma passes_b_passes {eng : RegExp.Engine} (re : option RegExp.regexp)
    (query : gmap string string) (d : etudiant) :
  (JS.truthy (query !! "nom") = false /\ re = None
   \/ exists r, re = Some r /\ JS.truthy (query !! "nom") = true
        /\ forall s, RegExp.test r s = true
                     <-> substring_ci (to_string (query !! "nom")) s) ->
  passes_b re query d = true <-> passes query d.
Proof.
  intros Hre. unfold passes_b, passes.
  rewrite !when_given_iff, !andb_true_iff, !guarded_true_iff, String.eqb_eq.
  assert (Hnom : match re with
                 | Some r => RegExp.test r (nom d)
                 | None => true
                 end = true
                 <-> (JS.truthy (query !! "nom") = true ->
                      substring_ci (to_string (query !! "nom")) (nom d))).
  { destruct Hre as [[Hfalse ->] | (r & -> & Htrue & Htest)].
    - rewrite Hfalse. split; [discriminate | reflexivity].
    - rewrite Htest. tauto. }
  rewrite Hnom. tauto.
Qed.

Lemma nom_regexp_is_Some {eng : RegExp.Engine} (query : gmap string string)
    (re : option RegExp.regexp) :
  nom_regexp query re ->
  (is_Some re <-> JS.truthy (query !! "nom") = true).
Proof.
  unfold nom_regexp. destruct (JS.truthy (query !! "nom")).
  - intros (r & _ & ->). split; eauto.
  - intros ->. split; [intros [? H] | intros H]; discriminate H.
Qed.

Lemma nom_regexp_filter {eng : RegExp.Engine} (query : gmap string string)
    (re : option RegExp.regexp) :
  nom_regexp query re ->
  advancedSearch_filter query = Ret (advanced_filter re query).
Proof.
  unfold nom_regexp. destruct (JS.truthy (query !! "nom")) eqn:Hnom.
  - intros (r & Hr & ->). now apply advancedSearch_filter_with_nom.
  - intros ->. now apply advancedSearch_filter_without_nom.
Qed.

(** The construction of the filter ends with the filter it built, or with
    the SyntaxError [new RegExp] threw on [nom]. *)
Lemma advancedSearch_filter_shape {eng : RegExp.Engine}
    (query : gmap string string) :
  (exists re : option RegExp.regexp, nom_regexp query re)
  \/ (JS.truthy (query !! "nom") = true
      /\ exists reason : string,
           RegExp.construct (query !! "nom") "i" = RegExp.Failed reason
           /\ advancedSearch_filter query
              = Throw (syntax_error (default "" (query !! "nom")) "i"
                         reason)).
Proof.
  unfold nom_regexp. destruct (JS.truthy (query !! "nom")) eqn:Hnom.
  - destruct (RegExp.construct (query !! "nom") "i") as [r | reason] eqn:Hr.
    + left. exists (Some r), r. split; reflexivity.
    + right. split; [reflexivity |]. exists reason.
      split; [reflexivity |]. now apply advancedSearch_filter_failed.
  - left. now exists None.
Qed.

(** C5, as the code has it.  Whatever the inputs, [advancedSearch] either
    builds a filter or, [nom] being present, not empty and not a valid
    pattern, throws the SyntaxError of [new RegExp] and builds none.  The
    filter built holds [actif: true] and exactly the keys whose input is
    present and not empty: [nom] with the case-insensitive regular
    expression [new RegExp(nom, 'i')] returned, [filiere] with the value
    itself, [annee] with the bounds [$gte] and [$lte] read by [parseInt]
    (either alone), [moyenne] with the bound [$gte] read by [parseFloat];
    a record passes when every one of these holds of it.  When moreover
    [nom] is absent, empty or without any character with a meaning of its
    own in a pattern, the filter is the one the specification words, [nom]
    being a literal case-folded substring. *)
Theorem advancedSearch_filter_built {eng : RegExp.Engine}
    (query : gmap string string) :
  (forall re : option RegExp.regexp,
     nom_regexp query re ->
     let f := advanced_filter re query in
     advancedSearch_filter query = Ret f
     /\ (forall k : string, is_Some (f !! k) <-> expected_key query k)
     /\ f !! "actif" = Some (Field (Equals (Bool true)))
     /\ f !! "nom" = (fun r => Field (Matches r)) <$> re
     /\ f !! "filiere"
        = (if JS.truthy (query !! "filiere")
           then Some (Field (Equals (of_param (query !! "filiere"))))
           else None)
     /\ f !! "annee"
        = (if JS.truthy (query !! "anneeMin")
              || JS.truthy (query !! "anneeMax")
           then Some (Field (Compare (annee_range (query !! "anneeMin")
                                                  (query !! "anneeMax"))))
           else None)
     /\ f !! "moyenne"
        = (if JS.truthy (query !! "moyenneMin")
           then Some (Field (Compare
                  {[ "$gte" :=
                       JS.parseFloat (to_string (query !! "moyenneMin")) ]}))
           else None)
     /\ (forall d : etudiant, matches f d = passes_b re query d))
  /\ ((exists re : option RegExp.regexp, nom_regexp query re)
      \/ (JS.truthy (query !! "nom") = true
          /\ exists reason : string,
               RegExp.construct (query !! "nom") "i" = RegExp.Failed reason
               /\ advancedSearch_filter query
                  = Throw (syntax_error (default "" (query !! "nom")) "i"
                             reason)))
  /\ (JS.truthy (query !! "nom") = false
      \/ plain (to_string (query !! "nom")) = true ->
      filter_as_specified query).
Proof.
  assert (Hbuilt : forall re, nom_regexp query re ->
            advancedSearch_filter query = Ret (advanced_filter re query)
            /\ forall k, is_Some (advanced_filter re query !! k)
                         <-> expected_key query k).
  { intros re Hre. split; [now apply nom_regexp_filter |].
    intros k. rewrite advanced_filter_keys. unfold expected_key.
    now rewrite (nom_regexp_is_Some query re Hre). }
  split; [| split].
  - intros re Hre f. destruct (Hbuilt re Hre) as [Hf Hkeys].
    destruct (advanced_filter_lookup re query) as (Ha & Hn & Hfi & Han & Hm).
    repeat split; try assumption; try apply Hkeys.
    intros d. apply matches_advanced_filter.
  - apply advancedSearch_filter_shape.
  - intros Hnom.
    assert (Hre : exists re,
               nom_regexp query re
               /\ (JS.truthy (query !! "nom") = false /\ re = None
                   \/ exists r, re = Some r
                        /\ JS.truthy (query !! "nom") = true
                        /\ forall s, RegExp.test r s = true
                             <-> substring_ci (to_string (query !! "nom")) s)).
    { unfold nom_regexp.
      destruct (JS.truthy (query !! "nom")) eqn:Htruthy.
      - destruct Hnom as [Hnom | Hplain]; [discriminate Hnom |].
        destruct (query !! "nom") as [n |]; [| discriminate Htruthy].
        cbn in Hplain.
        destruct (test_plain n Hplain) as (r & Hr & Htest).
        exists (Some r). split; [now exists r |].
        right. exists r. repeat split; apply Htest.
      - exists None. split; [reflexivity | left; split; reflexivity]. }
    destruct Hre as (re & Hre & Hlit).
    destruct (Hbuilt re Hre) as [Hf Hkeys].
    exists (advanced_filter re query). split; [exact Hf |].
    split; [exact Hkeys |].
    intros d. rewrite matches_advanced_filter. now apply passes_b_passes.
Qed.

Lemma advancedSearch_filter_built_witness :
  filter_as_specified
    (list_to_map [("nom", "mar"); ("anneeMin", "2020"); ("anneeMax", "")]).
Proof.
  apply (advancedSearch_filter_built
           (list_to_map [("nom", "mar"); ("anneeMin", "2020");
                         ("anneeMax", "")])).
  right. vm_compute. reflexivity.
Defined.

(** C5, refuted as stated: for the query [nom=(] no filter is built, the
    construction throws; so it is not the case that a filter with the
    expected keys is built for every combination of the inputs. *)
Lemma advancedSearch_filter_not_built :
  (exists e : error,
     advancedSearch_filter {[ "nom" := "(" ]} = Throw e)
  /\ ~ filter_as_specified {[ "nom" := "(" ]}.
Proof.
  split.
  - eexists. vm_compute. reflexivity.
  - intros (f & Hf & _). vm_compute in Hf. discriminate Hf.
Qed.

(** With [nom=.] the filter is built, and it lets Martin pass although
    the name holds no dot. *)
Example advancedSearch_dot_matches_any :
  exists f : gmap string entry,
    advancedSearch_filter {[ "nom" := "." ]} = Ret f
    /\ matches f martin = true
    /\ ~ substring_ci "." (nom martin).
Proof.
  eexists. split; [vm_compute; reflexivity |].
  split; [vm_compute; reflexivity |].
  intros Hsub. apply substring_ci_occurs in Hsub.
  vm_compute in Hsub. discriminate Hsub.
Qed.

(** ** The answers of the advanced search (C10) *)

Lemma advancedSearch_with_filter {eng : RegExp.Engine}
    (db : Type) (store : Store db)
    (req : request) (d d' : db) (f : gmap string entry)
    (o : outcome (list etudiant)) :
  advancedSearch_filter (query req) = Ret f ->
  exec (Find f ∅) d = (d', o) ->
  run (advancedSearch req) d
  = (d', Done match o with
              | Resolved found => advanced_found (query req) found
              | Rejected e => server_error_response e
              end).
Proof.
  intros Hf Hexec. unfold advancedSearch. rewrite Hf. cbn.
  rewrite Hexec. destruct o; reflexivity.
Qed.

Lemma advancedSearch_throwing {eng : RegExp.Engine}
    (db : Type) (store : Store db)
    (req : request) (d : db) (e : error) :
  advancedSearch_filter (query req) = Throw e ->
  run (advancedSearch req) d = (d, Done (server_error_response e))
  /\ calls (advancedSearch req) d = 0%nat.
Proof.
  intros Hf. unfold advancedSearch. rewrite Hf. split; reflexivity.
Qed.

(** C10, as the code has it: [advancedSearch] checks none of its inputs
    and never answers 400: for every input and every store it answers, and
    the status is 200 or 500.  Once the filter is built, whatever the
    bounds [parseInt] and [parseFloat] gave, the answer is 200 with the
    records found when the call to the store resolves, and 500 with the
    text of the error when it rejects.  The filter is built unless [nom] is
    present, not empty and not a valid pattern: then [new RegExp] throws,
    the answer is 500 as well, and no call is made to the store. *)
Theorem advancedSearch_outcomes {eng : RegExp.Engine} (db : Type)
    (store : Store db) (req : request) (d : db) :
  (exists (d' : db) (res : response),
     run (advancedSearch req) d = (d', Done res)
     /\ (Http.status res = 200%Z \/ Http.status res = 500%Z))
  /\ (forall (f : gmap string entry) (d' : db)
             (o : outcome (list etudiant)),
        advancedSearch_filter (query req) = Ret f ->
        exec (Find f ∅) d = (d', o) ->
        run (advancedSearch req) d
        = (d', Done match o with
                    | Resolved found => advanced_found (query req) found
                    | Rejected e => server_error_response e
                    end))
  /\ (forall e : error,
        advancedSearch_filter (query req) = Throw e ->
        run (advancedSearch req) d = (d, Done (server_error_response e))
        /\ calls (advancedSearch req) d = 0%nat)
  /\ ((exists f : gmap string entry,
         advancedSearch_filter (query req) = Ret f)
      \/ (JS.truthy (query req !! "nom") = true
          /\ exists reason : string,
               RegExp.construct (query req !! "nom") "i"
               = RegExp.Failed reason
               /\ advancedSearch_filter (query req)
                  = Throw (syntax_error (default "" (query req !! "nom"))
                             "i" reason))).
Proof.
  assert (Hshape :
            (exists f, advancedSearch_filter (query req) = Ret f)
            \/ (JS.truthy (query req !! "nom") = true
                /\ exists reason,
                     RegExp.construct (query req !! "nom") "i"
                     = RegExp.Failed reason
                     /\ advancedSearch_filter (query req)
                        = Throw (syntax_error
                                   (default "" (query req !! "nom")) "i"
                                   reason))).
  { destruct (advancedSearch_filter_shape (query req))
      as [[re Hre] | Hfailed]; [left | now right].
    exists (advanced_filter re (query req)). now apply nom_regexp_filter. }
  split; [| split; [| split]].
  - destruct Hshape as [[f Hf] | (_ & reason & _ & He)].
    + destruct (exec (Find f ∅) d) as [d1 o] eqn:Hexec.
      exists d1. eexists. split.
      * apply (advancedSearch_with_filter db store req d d1 f o Hf Hexec).
      * destruct o; [left | right]; reflexivity.
    + exists d. eexists. split.
      * apply (advancedSearch_throwing db store req d _ He).
      * right. reflexivity.
  - intros f d' o Hf Hexec.
    now apply (advancedSearch_with_filter db store req d d' f o).
  - intros e He. now apply advancedSearch_throwing.
  - exact Hshape.
Qed.

Lemma advancedSearch_outcomes_witness :
  JS.parseInt "abc" = JS.NaN
  /\ run_mem sample_schema
       (advancedSearch (get_request [] [("anneeMin", "abc")])) sample_docs
     = (sample_docs, Done (server_error_response cast_error)).
Proof.
  split; [vm_compute; reflexivity |].
  apply (proj1 (proj2 (advancedSearch_outcomes (list etudiant)
                  (mem_exec sample_schema)
                  (get_request [] [("anneeMin", "abc")]) sample_docs))
               (advanced_filter None (list_to_map [("anneeMin", "abc")]))
               sample_docs (Rejected cast_error)).
  - vm_compute. reflexivity.
  - vm_compute. reflexivity.
Defined.

(** C10, refuted as stated: for [nom=(] the answer is 500 although no
    call to the store failed, none having been made. *)
Lemma advancedSearch_500_without_store_failure :
  exists res : response,
    run_mem sample_schema
      (advancedSearch (get_request [] [("nom", "(")])) sample_docs
    = (sample_docs, Done res)
    /\ Http.status res = 500%Z
    /\ @calls (list etudiant) (mem_exec sample_schema) _
         (advancedSearch (get_request [] [("nom", "(")])) sample_docs
       = 0%nat.
Proof.
  eexists. split; [vm_compute; reflexivity |].
  split; [reflexivity | vm_compute; reflexivity].
Qed.

(* ===================================================================== *)
(** * Further properties of the handlers *)
(* ===================================================================== *)

(** ** What holds of a program holds of its runs *)

Lemma leaves_run {db : Type} {store : Store db} {A : Type}
    (P : A -> Prop) (m : io A) :
  leaves P m ->
  forall (d d' : db) (a : A), run m d = (d', Done a) -> P a.
Proof.
  induction m as [a0 | e | B c k IH]; cbn; intros Hm d d' a Hrun.
  - now injection Hrun as _ <-.
  - discriminate Hrun.
  - destruct (exec c d) as [d1 o]. now apply (IH o (Hm o) d1 d').
Qed.

Lemma catches_all_run {db : Type} {store : Store db} {A : Type}
    (m : io A) :
  catches_all m ->
  forall (d : db) (e : error), snd (run m d) <> Uncaught e.
Proof.
  induction m as [a0 | e0 | B c k IH]; cbn; intros Hm d e.
  - discriminate.
  - destruct Hm.
  - destruct (exec c d) as [d1 o]. now apply IH.
Qed.

Lemma catches_all_try_catch {A : Type} (m : io A) (h : error -> io A) :
  (forall e, catches_all (h e)) -> catches_all (try_catch m h).
Proof.
  intros Hh. induction m as [a0 | e0 | B c k IH]; cbn; auto.
Qed.

Lemma at_most_calls {db : Type} {store : Store db} {A : Type}
    (n : nat) (m : io A) :
  at_most n m -> forall d : db, (calls m d <= n)%nat.
Proof.
  revert n. induction m as [a0 | e0 | B c k IH]; cbn; intros n Hm d;
    try lia.
  destruct n as [| n]; [destruct Hm |].
  destruct (exec c d) as [d1 o]. specialize (IH o n (Hm o) d1). lia.
Qed.

Lemma lookups_only_run {db : Type} {store : Store db} {A : Type}
    (m : io A) :
  (forall (B : Type) (c : call B) (d : db),
     is_lookup c = true -> fst (exec c d) = d) ->
  lookups_only m ->
  forall d : db, fst (run m d) = d.
Proof.
  intros Hstore.
  induction m as [a0 | e0 | B c k IH]; cbn; intros Hm d; try reflexivity.
  destruct Hm as [Hc Hk]. specialize (Hstore B c d Hc).
  destruct (exec c d) as [d1 o]. cbn in Hstore. subst d1.
  now apply IH.
Qed.

(** Case analysis on the way the promises of a handler settle. *)
Ltac settle :=
  repeat match goal with
         | |- forall o : outcome _, _ =>
             let o := fresh "o" in
             intros o; destruct o as [? | ?]; cbn
         | x : option _ |- _ => destruct x; cbn
         | |- _ /\ _ => split
         end.

Lemma search_cases {eng : RegExp.Engine} (req : request) :
  searchEtudiants req
  = respond 400
      (with_message "Le paramètre de recherche q est obligatoire"
         (reply false))
  \/ (exists re : RegExp.regexp,
        searchEtudiants req
        = try_catch
            (etudiants ← await (Find (search_filter re) ∅);
             respond 200
               (with_query (query req !! "q")
                  (with_list etudiants (reply true))))
            server_error)
  \/ (exists e : error, searchEtudiants req = server_error e).
Proof.
  unfold searchEtudiants. cbv zeta.
  destruct (JS.truthy (query req !! "q")); cbn [negb].
  - unfold new_RegExp.
    destruct (RegExp.construct (query req !! "q") "i") as [re | reason].
    + right. left. exists re. reflexivity.
    + right. right. eexists. reflexivity.
  - left. reflexivity.
Qed.

Lemma advancedSearch_cases {eng : RegExp.Engine} (req : request) :
  (exists f : gmap string entry,
     advancedSearch req
     = try_catch
         (etudiants ← await (Find f ∅);
          respond 200
            (with_filters (query req) (with_list etudiants (reply true))))
         server_error)
  \/ (exists e : error, advancedSearch req = server_error e).
Proof.
  unfold advancedSearch.
  destruct (advancedSearch_filter_shape (query req))
    as [[re Hre] | (_ & reason & _ & He)].
  - left. exists (advanced_filter re (query req)).
    now rewrite (nom_regexp_filter _ _ Hre).
  - right. eexists. now rewrite He.
Qed.

(** ** No handler lets an exception escape *)

(** X1: whatever the store answers or throws, no handler ends with an
    uncaught exception: each body sits in a [try] whose [catch] answers. *)
Theorem handlers_catch_everything {eng : RegExp.Engine}
    (db : Type) (store : Store db)
    (h : request -> io response) (req : request) (d : db) (e : error) :
  In h handlers ->
  snd (run (h req) d) <> Uncaught e.
Proof.
  intros Hin. apply catches_all_run. cbn in Hin.
  repeat destruct Hin as [<- | Hin]; try destruct Hin;
    apply catches_all_try_catch; intros e0; cbn;
    try exact I; now destruct (code_is 11000 e0).
Qed.

Lemma handlers_catch_everything_witness :
  snd (run_mem sample_schema
         (deleteEtudiant (get_request [("id", "zzz")] [])) sample_docs)
  <> Uncaught id_cast_error.
Proof.
  apply (handlers_catch_everything (list etudiant) (mem_exec sample_schema)
           deleteEtudiant).
  cbn. tauto.
Defined.

(** ** The shape of every answer *)

Ltac envelope :=
  unfold envelope_ok; cbn;
  repeat split; try reflexivity; try discriminate; auto 10.

Lemma server_error_ok (e : error) : leaves envelope_ok (server_error e).
Proof. envelope. Qed.

Lemma list_answer_ok (f : gmap string entry) (sort : gmap string Z)
    (finish : list etudiant -> Http.envelope) :
  (forall l, envelope_ok (Http.mkResponse 200 (finish l))) ->
  leaves envelope_ok
    (try_catch (etudiants ← await (Find f sort);
                respond 200 (finish etudiants))
               server_error).
Proof. intros Hfinish. cbn. intros [l | e]; cbn; [apply Hfinish | envelope]. Qed.

Lemma handlers_leaves_ok {eng : RegExp.Engine}
    (h : request -> io response) (req : request) :
  In h handlers -> leaves envelope_ok (h req).
Proof.
  intros Hin. cbn in Hin.
  repeat destruct Hin as [<- | Hin]; try destruct Hin.
  - (* createEtudiant *)
    cbn. intros [[found |] | e]; cbn.
    + envelope.
    + intros [etudiant | e]; cbn; [envelope |].
      destruct (code_is 11000 e); envelope.
    + destruct (code_is 11000 e); envelope.
  - apply list_answer_ok. intros l. envelope.
  - cbn. intros [[etudiant |] | e]; cbn; envelope.
  - cbn. intros [[etudiant |] | e]; cbn; envelope.
  - cbn. intros [[etudiant |] | e]; cbn; envelope.
  - apply list_answer_ok. intros l. envelope.
  - destruct (search_cases req) as [H | [[re H] | [e H]]]; rewrite H.
    + envelope.
    + apply list_answer_ok. intros l. envelope.
    + envelope.
  - apply list_answer_ok. intros l. envelope.
  - destruct (advancedSearch_cases req) as [[f H] | [e H]]; rewrite H.
    + apply list_answer_ok. intros l. envelope.
    + envelope.
  - apply list_answer_ok. intros l. envelope.
Qed.

(** X2: whatever the store answers, the answer of a handler has the shape
    of [envelope_ok]: [success] is true exactly on a status below 400, the
    status is 200, 201, 400, 404 or 500, [count] is written exactly with a
    list of records and is its length, a failure carries no [data] and a
    success no [error]. *)
Theorem handlers_answer_well_formed {eng : RegExp.Engine}
    (db : Type) (store : Store db)
    (h : request -> io response) (req : request) (d d' : db)
    (res : response) :
  In h handlers ->
  run (h req) d = (d', Done res) ->
  envelope_ok res.
Proof.
  intros Hin Hrun.
  exact (leaves_run envelope_ok (h req) (handlers_leaves_ok h req Hin)
           d d' res Hrun).
Qed.

Lemma handlers_answer_well_formed_witness :
  envelope_ok (list_found [dupont; martin]).
Proof.
  apply (handlers_answer_well_formed (list etudiant)
           (mem_exec sample_schema) getAllEtudiants (get_request [] [])
           sample_docs sample_docs).
  - cbn. tauto.
  - vm_compute. reflexivity.
Defined.

(** ** How many calls a handler makes, and of which kind *)

Lemma list_answer_at_most (f : gmap string entry) (sort : gmap string Z)
    (finish : list etudiant -> Http.envelope) :
  at_most 1
    (try_catch (etudiants ← await (Find f sort);
                respond 200 (finish etudiants))
               server_error).
Proof. cbn. intros [l | e]; exact I. Qed.

Lemma single_call_handlers_at_most {eng : RegExp.Engine}
    (h : request -> io response)
    (req : request) :
  In h single_call_handlers -> at_most 1 (h req).
Proof.
  intros Hin. cbn in Hin.
  repeat destruct Hin as [<- | Hin]; try destruct Hin;
    try apply list_answer_at_most;
    try (cbn; intros [[etudiant |] | e]; exact I).
  - destruct (search_cases req) as [H | [[re H] | [e H]]]; rewrite H;
      try exact I. apply list_answer_at_most.
  - destruct (advancedSearch_cases req) as [[f H] | [e H]]; rewrite H;
      try exact I. apply list_answer_at_most.
Qed.

Lemma createEtudiant_at_most (req : request) :
  at_most 2 (createEtudiant req).
Proof.
  cbn. intros [[found |] | e]; cbn; try exact I.
  - intros [etudiant | e]; cbn; [exact I | now destruct (code_is 11000 e)].
  - now destruct (code_is 11000 e).
Qed.

(** X3: no handler calls the store again after an answer or a failure:
    [createEtudiant] makes at most two calls, the lookup and the insert,
    and every other handler at most one. *)
Theorem handlers_call_budget {eng : RegExp.Engine}
    (db : Type) (store : Store db)
    (req : request) (d : db) :
  (calls (createEtudiant req) d <= 2)%nat
  /\ forall h : request -> io response,
       In h single_call_handlers -> (calls (h req) d <= 1)%nat.
Proof.
  split.
  - apply at_most_calls, createEtudiant_at_most.
  - intros h Hin. now apply at_most_calls, single_call_handlers_at_most.
Qed.

Lemma list_answer_lookups (f : gmap string entry) (sort : gmap string Z)
    (finish : list etudiant -> Http.envelope) :
  lookups_only
    (try_catch (etudiants ← await (Find f sort);
                respond 200 (finish etudiants))
               server_error).
Proof. cbn. split; [reflexivity |]. intros [l | e]; exact I. Qed.

Lemma read_handlers_lookups_only {eng : RegExp.Engine}
    (h : request -> io response)
    (req : request) :
  In h read_handlers -> lookups_only (h req).
Proof.
  intros Hin. cbn in Hin.
  repeat destruct Hin as [<- | Hin]; try destruct Hin;
    try apply list_answer_lookups.
  - cbn. split; [reflexivity |]. intros [[etudiant |] | e]; exact I.
  - destruct (search_cases req) as [H | [[re H] | [e H]]]; rewrite H;
      try exact I. apply list_answer_lookups.
  - destruct (advancedSearch_cases req) as [[f H] | [e H]]; rewrite H;
      try exact I. apply list_answer_lookups.
Qed.

(** X4: the handlers of the GET routes call the store for lookups only
    ([find], [findById]), never for an insert or an update; so on a store
    whose lookups leave it as it is, they leave it as it is. *)
Theorem read_handlers_leave_store {eng : RegExp.Engine}
    (db : Type) (store : Store db)
    (h : request -> io response) (req : request) (d : db) :
  (forall (B : Type) (c : call B) (d0 : db),
     is_lookup c = true -> fst (exec c d0) = d0) ->
  In h read_handlers ->
  fst (run (h req) d) = d.
Proof.
  intros Hstore Hin.
  apply lookups_only_run; [exact Hstore |].
  now apply read_handlers_lookups_only.
Qed.

Lemma mem_lookups_leave_store {eng : RegExp.Engine}
    (sch : schema) (B : Type) (c : call B)
    (docs : list etudiant) :
  is_lookup c = true -> fst (mem_exec sch B c docs) = docs.
Proof. destruct c; cbn; intros H; first [reflexivity | discriminate H]. Qed.

Lemma read_handlers_leave_store_witness :
  fst (run_mem sample_schema
         (getEtudiantsSorted (get_request [] [("sortBy", "nom")]))
         sample_docs)
  = sample_docs.
Proof.
  apply (read_handlers_leave_store (list etudiant) (mem_exec sample_schema)
           getEtudiantsSorted).
  - intros B c d0. apply mem_lookups_leave_store.
  - cbn. tauto.
Defined.

Lemma handlers_call_budget_witness :
  (@calls (list etudiant) (mem_exec sample_schema) _
     (updateEtudiant (get_request [("id", sample_id 1)] [])) sample_docs
   <= 1)%nat.
Proof.
  apply (handlers_call_budget (list etudiant) (mem_exec sample_schema)
           (get_request [("id", sample_id 1)] []) sample_docs).
  cbn. tauto.
Defined.

(** ** The list handlers when the store fails *)



(** ** Update and delete, by the way the update settles *)

(** X6: [updateEtudiant] passes the identifier and the body to
    [findByIdAndUpdate] with [new] and [runValidators] set.  It answers
    200 with the record the store returns, 404 when the store returns
    nothing, and, unlike the other handlers, 400 with the message of the
    update error when the call throws, whatever the error. *)
Theorem update_by_outcome (db : Type) (store : Store db) (req : request)
    (d d' : db) (o : outcome (option etudiant)) :
  exec (FindByIdAndUpdate (params req !! "id") (body req)
          (mkOptions true true)) d = (d', o) ->
  run (updateEtudiant req) d
  = (d', Done match o with
              | Resolved (Some etudiant) =>
                  message_with 200 "Étudiant mis à jour avec succès" etudiant
              | Resolved None =>
                  message_only 404 false "Étudiant non trouvé"
              | Rejected e => failure_with 400 "Erreur de mise à jour" e
              end).
Proof.
  intros Hexec. unfold updateEtudiant. cbn. rewrite Hexec.
  destruct o as [[etudiant |] | e]; reflexivity.
Qed.

Lemma update_by_outcome_witness :
  run_mem sample_schema
    (updateEtudiant (get_request [("id", "zzz")] [])) sample_docs
  = (sample_docs,
     Done (failure_with 400 "Erreur de mise à jour" id_cast_error)).
Proof.
  apply (update_by_outcome (list etudiant) (mem_exec sample_schema)
           (get_request [("id", "zzz")] []) sample_docs sample_docs
           (Rejected id_cast_error)).
  vm_compute. reflexivity.
Defined.

(** X7: [deleteEtudiant] never removes and never forwards the body: its
    one call is [findByIdAndUpdate] with the update [{actif: false}], [new]
    set and no validators.  It answers 200 with the record returned, 404
    when nothing is returned, and 500 when the call throws. *)
Theorem delete_by_outcome (db : Type) (store : Store db) (req : request)
    (d d' : db) (o : outcome (option etudiant)) :
  exec (FindByIdAndUpdate (params req !! "id") deactivate
          (mkOptions true false)) d = (d', o) ->
  run (deleteEtudiant req) d
  = (d', Done match o with
              | Resolved (Some etudiant) =>
                  message_with 200 "Étudiant désactivé avec succès" etudiant
              | Resolved None =>
                  message_only 404 false "Étudiant non trouvé"
              | Rejected e => failure_with 500 "Erreur serveur" e
              end).
Proof.
  intros Hexec. unfold deleteEtudiant. cbn. rewrite Hexec.
  destruct o as [[etudiant |] | e]; reflexivity.
Qed.

Lemma delete_by_outcome_witness :
  run_mem sample_schema
    (deleteEtudiant (get_request [("id", sample_id 9)] [])) sample_docs
  = (sample_docs, Done (message_only 404 false "Étudiant non trouvé")).
Proof.
  apply (delete_by_outcome (list etudiant) (mem_exec sample_schema)
           (get_request [("id", sample_id 9)] []) sample_docs sample_docs
           (Resolved None)).
  vm_compute. reflexivity.
Defined.

(** ** Creation: the other paths *)

(** X8: when the duplicate check finds nothing and the insert resolves,
    [createEtudiant] answers 201 with the success message and the record
    the store returns, identifier included. *)
Theorem create_succeeds (db : Type) (store : Store db) (req : request)
    (d d1 d2 : db) (etudiant : etudiant) :
  exec (FindOne (name_filter (b_nom (body req)) (b_prenom (body req)))) d
  = (d1, Resolved None) ->
  exec (Create (body req)) d1 = (d2, Resolved etudiant) ->
  run (createEtudiant req) d
  = (d2, Done (message_with 201 "Étudiant créé avec succès" etudiant)).
Proof.
  intros Hfind Hcreate. unfold createEtudiant. cbn.
  rewrite Hfind. cbn. rewrite Hcreate. reflexivity.
Qed.

Lemma create_succeeds_witness :
  let b := mkFields (Some "Durand") (Some "Paul") (Some "paul@x.com")
                    (Some "CS") None None None in
  let d := mkEtudiant (sample_id 3) "Durand" "Paul" "paul@x.com" "CS"
                      0%Q 0%Q true in
  run_mem sample_schema (createEtudiant (post_request b)) sample_docs
  = (sample_docs ++ [d],
     Done (message_with 201 "Étudiant créé avec succès" d)).
Proof.
  apply (create_succeeds (list etudiant) (mem_exec sample_schema)
           (post_request (mkFields (Some "Durand") (Some "Paul")
                            (Some "paul@x.com") (Some "CS") None None None))
           sample_docs sample_docs).
  - vm_compute. reflexivity.
  - vm_compute. reflexivity.
Defined.

(** X9: the [catch] of [createEtudiant] also covers the duplicate check.
    When that lookup throws, the insert is not attempted and the answer is
    400, not 500: the duplicate-email message if the code of the error is
    the number 11000, the invalid-data message with the text of the error
    if the code is anything else. *)
Theorem create_lookup_throws (db : Type) (store : Store db) (req : request)
    (d d1 : db) (e : error) :
  exec (FindOne (name_filter (b_nom (body req)) (b_prenom (body req)))) d
  = (d1, Rejected e) ->
  calls (createEtudiant req) d = 1%nat
  /\ (code e = NumCode 11000 ->
      run (createEtudiant req) d
      = (d1, Done (message_only 400 false "Cet email existe déjà")))
  /\ (code e <> NumCode 11000 ->
      run (createEtudiant req) d
      = (d1, Done (failure_with 400 "Données invalides" e))).
Proof.
  intros Hfind. unfold createEtudiant. cbn. rewrite Hfind. cbn.
  destruct (code_is 11000 e) eqn:Hcode.
  - apply code_is_spec in Hcode.
    split; [reflexivity |]. split; [reflexivity | congruence].
  - split; [reflexivity |]. split; [| reflexivity].
    intros Heq. apply code_is_spec in Heq. congruence.
Qed.

Lemma create_lookup_throws_witness :
  @run unit (unreachable_store connection_refused) _
    (createEtudiant (post_request no_fields)) tt
  = (tt, Done (failure_with 400 "Données invalides" connection_refused))
  /\ @run unit (unreachable_store duplicate_key_error) _
       (createEtudiant (post_request no_fields)) tt
     = (tt, Done (message_only 400 false "Cet email existe déjà")).
Proof.
  split.
  - apply (proj2 (proj2 (create_lookup_throws unit
                           (unreachable_store connection_refused)
                           (post_request no_fields) tt tt connection_refused
                           eq_refl))).
    discriminate.
  - apply (proj1 (proj2 (create_lookup_throws unit
                           (unreachable_store duplicate_key_error)
                           (post_request no_fields) tt tt duplicate_key_error
                           eq_refl))).
    reflexivity.
Defined.

(** ** Requests without a filter *)

Lemma advancedSearch_filter_unfiltered {eng : RegExp.Engine}
    (query : gmap string string) :
  (forall k, In k advanced_inputs -> JS.truthy (query !! k) = false) ->
  advancedSearch_filter query = Ret (actif_is true).
Proof.
  intros Hq. unfold advancedSearch_filter. cbv zeta.
  rewrite (Hq "nom"), (Hq "filiere"), (Hq "anneeMin"), (Hq "anneeMax"),
    (Hq "moyenneMin") by (cbn; tauto).
  reflexivity.
Qed.

Lemma sortOptions_of_unsorted (sortBy order : option string) :
  JS.truthy sortBy = false -> sortOptions_of sortBy order = ∅.
Proof. intros H. unfold sortOptions_of. now rewrite H. Qed.

(** X10: with none of its five inputs given, or given empty,
    [advancedSearch] makes the very call [getAllEtudiants] makes, and so
    does [getEtudiantsSorted] when [sortBy] is absent or empty: the three
    answer with the same records and the same count, or fail alike. *)
Theorem unfiltered_requests_list_all {eng : RegExp.Engine}
    (db : Type) (store : Store db)
    (req : request) (d d' : db) (o : outcome (list etudiant)) :
  exec (Find (actif_is true) ∅) d = (d', o) ->
  ((forall k, In k advanced_inputs -> JS.truthy (query req !! k) = false) ->
   run (advancedSearch req) d
   = (d', Done match o with
               | Resolved etudiants => advanced_found (query req) etudiants
               | Rejected e => failure_with 500 "Erreur serveur" e
               end))
  /\ (JS.truthy (query req !! "sortBy") = false ->
      run (getEtudiantsSorted req) d
      = (d', Done match o with
                  | Resolved etudiants =>
                      Http.mkResponse 200
                        (with_sort (query req !! "sortBy")
                           (query req !! "order")
                           (with_list etudiants (reply true)))
                  | Rejected e => failure_with 500 "Erreur serveur" e
                  end))
  /\ run (getAllEtudiants req) d
     = (d', Done match o with
                 | Resolved etudiants => list_found etudiants
                 | Rejected e => failure_with 500 "Erreur serveur" e
                 end).
Proof.
  intros Hexec. split; [| split].
  - intros Hq. unfold advancedSearch.
    rewrite (advancedSearch_filter_unfiltered (query req) Hq). cbn.
    rewrite Hexec. destruct o; reflexivity.
  - intros Hsort. unfold getEtudiantsSorted. cbv zeta.
    rewrite (sortOptions_of_unsorted _ _ Hsort). cbn.
    rewrite Hexec. destruct o; reflexivity.
  - unfold getAllEtudiants. cbn. rewrite Hexec. destruct o; reflexivity.
Qed.

Lemma unfiltered_requests_list_all_witness :
  run_mem sample_schema
    (advancedSearch (get_request [] [("nom", ""); ("sortBy", "")]))
    sample_docs
  = (sample_docs,
     Done (advanced_found (list_to_map [("nom", ""); ("sortBy", "")])
             [dupont; martin])).
Proof.
  apply (proj1 (unfiltered_requests_list_all (list etudiant)
                  (mem_exec sample_schema)
                  (get_request [] [("nom", ""); ("sortBy", "")])
                  sample_docs sample_docs (Resolved [dupont; martin])
                  ltac:(vm_compute; reflexivity))).
  intros k Hk. cbn in Hk.
  repeat destruct Hk as [<- | Hk]; try destruct Hk; vm_compute; reflexivity.
Defined.

(* ===================================================================== *)
(** * The handlers on the in-memory store, one after the other *)
(* ===================================================================== *)

Lemma mem_getAll {eng : RegExp.Engine}
    (sch : schema) (docs : list etudiant) (req : request) :
  run_mem sch (getAllEtudiants req) docs
  = (docs, Done (list_found (List.filter actif docs))).
Proof.
  unfold run_mem, getAllEtudiants. cbn. unfold mem_find.
  unfold actif_is at 1. rewrite castable_singleton. cbn.
  rewrite sort_by_empty, filter_actif. reflexivity.
Qed.

Lemma filter_inactif {eng : RegExp.Engine} (docs : list etudiant) :
  List.filter (matches (actif_is false)) docs
  = List.filter (fun d => negb (actif d)) docs.
Proof.
  apply filter_ext_eq. intros d. rewrite matches_actif.
  now destruct (actif d).
Qed.

Lemma mem_inactifs {eng : RegExp.Engine}
    (sch : schema) (docs : list etudiant) (req : request) :
  run_mem sch (getEtudiantsInactifs req) docs
  = (docs, Done (list_found (List.filter (fun d => negb (actif d)) docs))).
Proof.
  unfold run_mem, getEtudiantsInactifs. cbn. unfold mem_find.
  unfold actif_is at 1. rewrite castable_singleton. cbn.
  rewrite sort_by_empty, filter_inactif. reflexivity.
Qed.

Lemma mem_getById {eng : RegExp.Engine}
    (sch : schema) (docs : list etudiant) (req : request)
    (i : string) :
  params req !! "id" = Some i ->
  valid_id sch i = true ->
  run_mem sch (getEtudiantById req) docs
  = (docs,
     Done match List.find (has_id i) docs with
          | Some d =>
              Http.mkResponse 200 (with_data (Http.One d) (reply true))
          | None => message_only 404 false "Étudiant non trouvé"
          end).
Proof.
  intros Hid Hvalid. unfold run_mem, getEtudiantById. cbn.
  rewrite Hid. cbn. rewrite Hvalid. cbn.
  destruct (List.find (has_id i) docs); reflexivity.
Qed.

Lemma filter_partition_permutation {A : Type} (f : A -> bool) (l : list A) :
  Permutation (List.filter f l ++ List.filter (fun x => negb (f x)) l) l.
Proof.
  induction l as [| x l IH]; cbn; [constructor |].
  destruct (f x); cbn.
  - now constructor.
  - apply Permutation_sym. eapply perm_trans.
    + apply perm_skip. apply Permutation_sym. exact IH.
    + apply Permutation_middle.
Qed.

(** X11: on the in-memory store, the list of active records and the list
    of inactive ones split the store: every stored record is in exactly
    one of the two answers, and the two counts add up to the size of the
    store. *)
Theorem active_and_inactive_split_store {eng : RegExp.Engine} (sch : schema)
    (docs : list etudiant) (req : request) :
  exists actifs inactifs : list etudiant,
    run_mem sch (getAllEtudiants req) docs
    = (docs, Done (list_found actifs))
    /\ run_mem sch (getEtudiantsInactifs req) docs
       = (docs, Done (list_found inactifs))
    /\ Permutation (actifs ++ inactifs) docs
    /\ (length actifs + length inactifs = length docs)%nat
    /\ (forall d : etudiant, In d actifs -> In d inactifs -> False).
Proof.
  exists (List.filter actif docs),
         (List.filter (fun d => negb (actif d)) docs).
  split; [apply mem_getAll |]. split; [apply mem_inactifs |].
  pose proof (filter_partition_permutation actif docs) as Hperm.
  split; [exact Hperm |]. split.
  - rewrite <- length_app. now apply Permutation_length.
  - intros d Ha Hi. apply List.filter_In in Ha as [_ Ha].
    apply List.filter_In in Hi as [_ Hi]. rewrite Ha in Hi. discriminate Hi.
Qed.

(** ** Soft delete never removes *)

Lemma has_id_eq (i : string) (d : etudiant) :
  has_id i d = true <-> _id d = i.
Proof. unfold has_id. apply String.eqb_eq. Qed.

Lemma replace_by_id_ids (i : string) (d' : etudiant)
    (docs : list etudiant) :
  has_id i d' = true -> ids (replace_by_id i d' docs) = ids docs.
Proof.
  intros Hd'. apply has_id_eq in Hd'.
  induction docs as [| x docs IH]; cbn; [reflexivity |].
  destruct (has_id i x) eqn:Hx; cbn.
  - apply has_id_eq in Hx. now rewrite Hd', Hx.
  - unfold ids in IH. now rewrite IH.
Qed.

Lemma replace_by_id_others (i : string) (d' x : etudiant)
    (docs : list etudiant) :
  In x docs -> has_id i x = false -> In x (replace_by_id i d' docs).
Proof.
  intros Hin Hx. induction docs as [| y docs IH]; cbn; [destruct Hin |].
  destruct Hin as [-> | Hin].
  - rewrite Hx. now left.
  - destruct (has_id i y); right; [exact Hin | now apply IH].
Qed.

(** The store after [deleteEtudiant]: as it was, or with the first record
    of the identifier deactivated. *)
Lemma mem_delete_store {eng : RegExp.Engine}
    (sch : schema) (docs : list etudiant)
    (req : request) :
  fst (run_mem sch (deleteEtudiant req) docs) = docs
  \/ exists (i : string) (d : etudiant),
       params req !! "id" = Some i
       /\ List.find (has_id i) docs = Some d
       /\ fst (run_mem sch (deleteEtudiant req) docs)
          = replace_by_id i (apply_update deactivate d) docs.
Proof.
  unfold run_mem, deleteEtudiant. cbn.
  destruct (params req !! "id") as [i |] eqn:Hid; cbn; [| now left].
  destruct (valid_id sch i); cbn; [| now left].
  destruct (List.find (has_id i) docs) as [d |] eqn:Hfind; cbn; [| now left].
  right. exists i, d. split; [reflexivity |]. split; [exact Hfind |].
  reflexivity.
Qed.

(** X12: on the in-memory store, [deleteEtudiant] never removes a record,
    whatever the request: the store keeps the same identifiers in the same
    order, and a record under another identifier than the one asked for is
    kept as it is. *)
Theorem delete_keeps_every_record {eng : RegExp.Engine}
    (sch : schema) (docs : list etudiant)
    (req : request) :
  let docs' := fst (run_mem sch (deleteEtudiant req) docs) in
  ids docs' = ids docs
  /\ length docs' = length docs
  /\ forall x : etudiant,
       In x docs -> params req !! "id" <> Some (_id x) -> In x docs'.
Proof.
  intros docs'.
  assert (Hids : ids docs' = ids docs
                 /\ forall x, In x docs ->
                      params req !! "id" <> Some (_id x) -> In x docs').
  { unfold docs'.
    destruct (mem_delete_store sch docs req)
      as [-> | (i & d & Hid & Hfind & ->)].
    - split; [reflexivity | auto].
    - split.
      + apply replace_by_id_ids. rewrite has_id_apply_update.
        now destruct (List.find_some _ _ Hfind).
      + intros x Hin Hother. apply replace_by_id_others; [exact Hin |].
        destruct (has_id i x) eqn:Hx; [| reflexivity].
        apply has_id_eq in Hx. rewrite Hid, Hx in Hother.
        now destruct Hother. }
  destruct Hids as [Hids Hothers]. split; [exact Hids |].
  split; [| exact Hothers].
  unfold ids in Hids. apply (f_equal (@length string)) in Hids.
  now rewrite !length_map in Hids.
Qed.

Lemma delete_keeps_every_record_witness :
  ids (fst (run_mem sample_schema
              (deleteEtudiant (get_request [("id", sample_id 0)] []))
              sample_docs))
  = ids sample_docs.
Proof.
  apply (delete_keeps_every_record sample_schema sample_docs
           (get_request [("id", sample_id 0)] [])).
Defined.

(** ** After a soft delete *)

Lemma filter_actif_replace (i : string) (d d' : etudiant)
    (docs : list etudiant) :
  List.NoDup (ids docs) ->
  List.find (has_id i) docs = Some d ->
  actif d' = false ->
  List.filter actif (replace_by_id i d' docs)
  = List.filter (fun x => actif x && negb (has_id i x)) docs.
Proof.
  intros Hnodup Hfind Hd'.
  induction docs as [| x docs IH]; cbn in *; [discriminate Hfind |].
  apply NoDup_cons_iff in Hnodup as [Hx Hnodup].
  destruct (has_id i x) eqn:Hix; cbn.
  - rewrite Hd', andb_false_r.
    apply List.filter_ext_in. intros y Hy.
    destruct (has_id i y) eqn:Hiy; [| now rewrite andb_true_r].
    apply has_id_eq in Hix, Hiy. exfalso. apply Hx.
    rewrite Hix, <- Hiy. unfold ids. now apply in_map.
  - rewrite andb_true_r. destruct (actif x); now rewrite IH.
Qed.

Lemma replaced_is_stored (i : string) (d d' : etudiant)
    (docs : list etudiant) :
  List.find (has_id i) docs = Some d ->
  has_id i d' = true ->
  In d' (replace_by_id i d' docs).
Proof.
  intros Hfind Hd'.
  assert (H : List.find (has_id i) (replace_by_id i d' docs) = Some d').
  { apply find_replace_by_id; [exact Hd' | now rewrite Hfind]. }
  now destruct (List.find_some _ _ H).
Qed.

(** X13: on the in-memory store with distinct identifiers, once
    [deleteEtudiant] has answered 200 for an identifier, [getAllEtudiants]
    lists the records that were active under another identifier and no
    record of that identifier, and [getEtudiantsInactifs] lists the
    deactivated record. *)
Theorem deleted_leaves_the_active_list {eng : RegExp.Engine} (sch : schema)
    (docs : list etudiant) (req req' : request) (i : string)
    (d : etudiant) :
  params req !! "id" = Some i ->
  valid_id sch i = true ->
  List.find (has_id i) docs = Some d ->
  List.NoDup (ids docs) ->
  let d' := apply_update deactivate d in
  exists docs' actifs inactifs : list etudiant,
    run_mem sch (deleteEtudiant req) docs
    = (docs', Done (message_with 200 "Étudiant désactivé avec succès" d'))
    /\ run_mem sch (getAllEtudiants req') docs'
       = (docs', Done (list_found actifs))
    /\ run_mem sch (getEtudiantsInactifs req') docs'
       = (docs', Done (list_found inactifs))
    /\ (forall x : etudiant,
          In x actifs <-> In x docs /\ actif x = true /\ _id x <> i)
    /\ In d' inactifs.
Proof.
  intros Hid Hvalid Hfind Hnodup d'.
  assert (Hd' : has_id i d' = true).
  { unfold d'. rewrite has_id_apply_update.
    now destruct (List.find_some _ _ Hfind). }
  exists (replace_by_id i d' docs),
         (List.filter actif (replace_by_id i d' docs)),
         (List.filter (fun x => negb (actif x)) (replace_by_id i d' docs)).
  split; [now apply delete_found |].
  split; [apply mem_getAll |]. split; [apply mem_inactifs |]. split.
  - intros x.
    rewrite (filter_actif_replace i d d' docs Hnodup Hfind eq_refl).
    rewrite List.filter_In, andb_true_iff, negb_true_iff.
    rewrite <- has_id_eq.
    destruct (has_id i x); intuition congruence.
  - apply List.filter_In. split; [| reflexivity].
    now apply (replaced_is_stored i d).
Qed.

Lemma deleted_leaves_the_active_list_witness :
  exists docs' actifs inactifs : list etudiant,
    run_mem sample_schema
      (deleteEtudiant (get_request [("id", sample_id 0)] [])) sample_docs
    = (docs', Done (message_with 200 "Étudiant désactivé avec succès"
                      (apply_update deactivate dupont)))
    /\ run_mem sample_schema (getAllEtudiants (get_request [] [])) docs'
       = (docs', Done (list_found actifs))
    /\ run_mem sample_schema (getEtudiantsInactifs (get_request [] [])) docs'
       = (docs', Done (list_found inactifs))
    /\ (forall x : etudiant,
          In x actifs <->
          In x sample_docs /\ actif x = true /\ _id x <> sample_id 0)
    /\ In (apply_update deactivate dupont) inactifs.
Proof.
  apply (deleted_leaves_the_active_list sample_schema sample_docs
           (get_request [("id", sample_id 0)] []) (get_request [] [])
           (sample_id 0) dupont).
  - vm_compute. reflexivity.
  - vm_compute. reflexivity.
  - vm_compute. reflexivity.
  - unfold ids. cbn. repeat constructor; cbn; intuition discriminate.
Defined.

(** X14: [getEtudiantById] looks a record up whatever its [actif] flag:
    on the in-memory store, after [deleteEtudiant] has answered 200 for an
    identifier, the lookup of that identifier still answers 200, with the
    deactivated record. *)
Theorem deleted_is_still_found {eng : RegExp.Engine}
    (sch : schema) (docs : list etudiant)
    (req : request) (i : string) (d : etudiant) :
  params req !! "id" = Some i ->
  valid_id sch i = true ->
  List.find (has_id i) docs = Some d ->
  let d' := apply_update deactivate d in
  exists docs' : list etudiant,
    run_mem sch (deleteEtudiant req) docs
    = (docs', Done (message_with 200 "Étudiant désactivé avec succès" d'))
    /\ run_mem sch (getEtudiantById req) docs'
       = (docs',
          Done (Http.mkResponse 200 (with_data (Http.One d') (reply true))))
    /\ actif d' = false.
Proof.
  intros Hid Hvalid Hfind d'.
  assert (Hd' : has_id i d' = true).
  { unfold d'. rewrite has_id_apply_update.
    now destruct (List.find_some _ _ Hfind). }
  exists (replace_by_id i d' docs).
  split; [now apply delete_found |]. split; [| reflexivity].
  rewrite (mem_getById sch _ req i Hid Hvalid).
  rewrite find_replace_by_id; [reflexivity | exact Hd' | now rewrite Hfind].
Qed.

Lemma deleted_is_still_found_witness :
  exists docs' : list etudiant,
    run_mem sample_schema
      (deleteEtudiant (get_request [("id", sample_id 1)] [])) sample_docs
    = (docs', Done (message_with 200 "Étudiant désactivé avec succès"
                      (apply_update deactivate martin)))
    /\ run_mem sample_schema
         (getEtudiantById (get_request [("id", sample_id 1)] [])) docs'
       = (docs',
          Done (Http.mkResponse 200
                  (with_data (Http.One (apply_update deactivate martin))
                     (reply true))))
    /\ actif (apply_update deactivate martin) = false.
Proof.
  apply (deleted_is_still_found sample_schema sample_docs
           (get_request [("id", sample_id 1)] []) (sample_id 1) martin).
  - vm_compute. reflexivity.
  - vm_compute. reflexivity.
  - vm_compute. reflexivity.
Defined.

(** ** After a creation *)

Lemma mem_create_inserts {eng : RegExp.Engine}
    (sch : schema) (docs : list etudiant)
    (req : request) (d0 : etudiant) :
  List.find (matches (name_filter (b_nom (body req)) (b_prenom (body req))))
            docs = None ->
  validate sch (body req) = Resolved d0 ->
  email_taken (email d0) docs = false ->
  run_mem sch (createEtudiant req) docs
  = (docs ++ [with_id (new_id sch docs) d0],
     Done (message_with 201 "Étudiant créé avec succès"
             (with_id (new_id sch docs) d0))).
Proof.
  intros Hfind Hvalidate Hemail.
  unfold run_mem, createEtudiant. cbn.
  unfold mem_findOne. rewrite castable_name_filter, Hfind. cbn.
  unfold mem_create. rewrite Hvalidate, Hemail. reflexivity.
Qed.

Lemma find_after_append {A : Type} (f : A -> bool) (l : list A) (x : A) :
  List.find f l = None -> f x = true -> List.find f (l ++ [x]) = Some x.
Proof.
  intros Hnone Hx. induction l as [| y l IH]; cbn in *.
  - now rewrite Hx.
  - destruct (f y); [discriminate Hnone | now apply IH].
Qed.

Lemma has_id_with_id (i : string) (d : etudiant) :
  has_id i (with_id i d) = true.
Proof. unfold has_id. cbn. apply String.eqb_refl. Qed.

(** X15: on the in-memory store, when no stored record has the (nom,
    prenom) pair of the body, the schema accepts the body, the email is
    not taken and the identifier the store generates is fresh and well
    formed, [createEtudiant] answers 201 with the record under that
    identifier, appends it to the store, and [getEtudiantById] on that
    identifier then answers 200 with the same record. *)
Theorem created_is_found {eng : RegExp.Engine}
    (sch : schema) (docs : list etudiant)
    (req req' : request) (d0 : etudiant) :
  List.find (matches (name_filter (b_nom (body req)) (b_prenom (body req))))
            docs = None ->
  validate sch (body req) = Resolved d0 ->
  email_taken (email d0) docs = false ->
  valid_id sch (new_id sch docs) = true ->
  List.find (has_id (new_id sch docs)) docs = None ->
  params req' !! "id" = Some (new_id sch docs) ->
  let d := with_id (new_id sch docs) d0 in
  run_mem sch (createEtudiant req) docs
  = (docs ++ [d], Done (message_with 201 "Étudiant créé avec succès" d))
  /\ run_mem sch (getEtudiantById req') (docs ++ [d])
     = (docs ++ [d],
        Done (Http.mkResponse 200 (with_data (Http.One d) (reply true)))).
Proof.
  intros Hfind Hvalidate Hemail Hvalid Hfresh Hid d.
  split; [now apply mem_create_inserts |].
  rewrite (mem_getById sch _ req' _ Hid Hvalid).
  rewrite (find_after_append _ docs d Hfresh (has_id_with_id _ d0)).
  reflexivity.
Qed.

Lemma created_is_found_witness :
  let b := mkFields (Some "Durand") (Some "Paul") (Some "paul@x.com")
                    (Some "CS") None None None in
  let d := mkEtudiant (sample_id 3) "Durand" "Paul" "paul@x.com" "CS"
                      0%Q 0%Q true in
  run_mem sample_schema (createEtudiant (post_request b)) sample_docs
  = (sample_docs ++ [d],
     Done (message_with 201 "Étudiant créé avec succès" d))
  /\ run_mem sample_schema
       (getEtudiantById (get_request [("id", sample_id 3)] []))
       (sample_docs ++ [d])
     = (sample_docs ++ [d],
        Done (Http.mkResponse 200 (with_data (Http.One d) (reply true)))).
Proof.
  apply (created_is_found sample_schema sample_docs
           (post_request (mkFields (Some "Durand") (Some "Paul")
                            (Some "paul@x.com") (Some "CS") None None None))
           (get_request [("id", sample_id 3)] [])
           (mkEtudiant "" "Durand" "Paul" "paul@x.com" "CS" 0%Q 0%Q true));
    vm_compute; reflexivity.
Defined.

(** X16: on the in-memory store, under a schema that stores the [nom] and
    [prenom] it is given, a creation that succeeded cannot be repeated:
    the same body sent again is answered 400 with the duplicate-name
    message, and the store keeps the one record. *)
Theorem created_twice_is_refused {eng : RegExp.Engine}
    (sch : schema) (docs : list etudiant)
    (req : request) (d0 : etudiant) :
  List.find (matches (name_filter (b_nom (body req)) (b_prenom (body req))))
            docs = None ->
  validate sch (body req) = Resolved d0 ->
  email_taken (email d0) docs = false ->
  b_nom (body req) = Some (nom d0) ->
  b_prenom (body req) = Some (prenom d0) ->
  let docs' := docs ++ [with_id (new_id sch docs) d0] in
  fst (run_mem sch (createEtudiant req) docs) = docs'
  /\ run_mem sch (createEtudiant req) docs'
     = (docs',
        Done (message_only 400 false
                "Un étudiant avec ce nom et ce prénom existe déjà")).
Proof.
  intros Hfind Hvalidate Hemail Hnom Hprenom docs'.
  split.
  - now rewrite (mem_create_inserts sch docs req d0).
  - assert (Hfound : exists y,
               List.find (matches (name_filter (b_nom (body req))
                                               (b_prenom (body req))))
                         docs' = Some y).
    { apply (find_In_some _ docs' (with_id (new_id sch docs) d0)).
      - unfold docs'. apply in_or_app. right. now left.
      - rewrite Hnom, Hprenom, matches_name_filter. cbn.
        now rewrite !String.eqb_refl. }
    destruct Hfound as [y Hy].
    unfold run_mem, createEtudiant. cbn.
    unfold mem_findOne. rewrite castable_name_filter, Hy. reflexivity.
Qed.

Lemma created_twice_is_refused_witness :
  let b := mkFields (Some "Durand") (Some "Paul") (Some "paul@x.com")
                    (Some "CS") None None None in
  let docs' := sample_docs
               ++ [mkEtudiant (sample_id 3) "Durand" "Paul" "paul@x.com"
                              "CS" 0%Q 0%Q true] in
  fst (run_mem sample_schema (createEtudiant (post_request b)) sample_docs)
  = docs'
  /\ run_mem sample_schema (createEtudiant (post_request b)) docs'
     = (docs',
        Done (message_only 400 false
                "Un étudiant avec ce nom et ce prénom existe déjà")).
Proof.
  apply (created_twice_is_refused sample_schema sample_docs
           (post_request (mkFields (Some "Durand") (Some "Paul")
                            (Some "paul@x.com") (Some "CS") None None None))
           (mkEtudiant "" "Durand" "Paul" "paul@x.com" "CS" 0%Q 0%Q true));
    vm_compute; reflexivity.
Defined.

(** X17: on the in-memory store, a body the schema accepts, with a (nom,
    prenom) pair no stored record has but an email a stored record has, is
    answered 400 with the duplicate-email message after two calls, and the
    store is left as it was. *)
Theorem create_duplicate_email {eng : RegExp.Engine}
    (sch : schema) (docs : list etudiant)
    (req : request) (d0 : etudiant) :
  List.find (matches (name_filter (b_nom (body req)) (b_prenom (body req))))
            docs = None ->
  validate sch (body req) = Resolved d0 ->
  email_taken (email d0) docs = true ->
  run_mem sch (createEtudiant req) docs
  = (docs, Done (message_only 400 false "Cet email existe déjà"))
  /\ @calls (list etudiant) (mem_exec sch) _ (createEtudiant req) docs
     = 2%nat.
Proof.
  intros Hfind Hvalidate Hemail.
  unfold run_mem, createEtudiant. cbn.
  unfold mem_findOne. rewrite castable_name_filter, Hfind. cbn.
  unfold mem_create. rewrite Hvalidate, Hemail. cbn.
  split; reflexivity.
Qed.

Lemma create_duplicate_email_witness :
  run_mem sample_schema
    (createEtudiant
       (post_request (mkFields (Some "Dupont") (Some "Jeanne")
                        (Some "jean@x.com") None None None None)))
    sample_docs
  = (sample_docs, Done (message_only 400 false "Cet email existe déjà")).
Proof.
  apply (create_duplicate_email sample_schema sample_docs
           (post_request (mkFields (Some "Dupont") (Some "Jeanne")
                            (Some "jean@x.com") None None None None))
           (mkEtudiant "" "Dupont" "Jeanne" "jean@x.com" "" 0%Q 0%Q true));
    vm_compute; reflexivity.
Defined.

(** ** Identifiers that name no record *)

(** X18: on the in-memory store, a well-formed identifier no stored
    record carries is answered 404 by [getEtudiantById] and by
    [deleteEtudiant], and by [updateEtudiant] when the body passes the
    validators; in each case the store is left as it was. *)
Theorem unknown_identifier_is_404 {eng : RegExp.Engine}
    (sch : schema) (docs : list etudiant)
    (req : request) (i : string) :
  params req !! "id" = Some i ->
  valid_id sch i = true ->
  List.find (has_id i) docs = None ->
  let missing := message_only 404 false "Étudiant non trouvé" in
  run_mem sch (getEtudiantById req) docs = (docs, Done missing)
  /\ run_mem sch (deleteEtudiant req) docs = (docs, Done missing)
  /\ (validate_update sch (body req) = None ->
      run_mem sch (updateEtudiant req) docs = (docs, Done missing)).
Proof.
  intros Hid Hvalid Hfind missing. split; [| split].
  - rewrite (mem_getById sch docs req i Hid Hvalid), Hfind. reflexivity.
  - unfold run_mem, deleteEtudiant. cbn. rewrite Hid. cbn.
    rewrite Hvalid. cbn. rewrite Hfind. reflexivity.
  - intros Hpass. unfold run_mem, updateEtudiant. cbn. rewrite Hid. cbn.
    rewrite Hvalid. cbn. rewrite Hpass, Hfind. reflexivity.
Qed.

Lemma unknown_identifier_is_404_witness :
  run_mem sample_schema
    (getEtudiantById (get_request [("id", sample_id 9)] [])) sample_docs
  = (sample_docs, Done (message_only 404 false "Étudiant non trouvé")).
Proof.
  apply (unknown_identifier_is_404 sample_schema sample_docs
           (get_request [("id", sample_id 9)] []) (sample_id 9));
    vm_compute; reflexivity.
Defined.

(** X19: on the in-memory store, an identifier that is not well formed
    makes the store throw, and the three handlers taking an identifier
    answer differently: [getEtudiantById] and [deleteEtudiant] 500 with the
    generic message, [updateEtudiant] 400 with the update message; each
    gives the text of the cast error and leaves the store as it was. *)
Theorem malformed_identifier_answers {eng : RegExp.Engine}
    (sch : schema) (docs : list etudiant)
    (req : request) (i : string) :
  params req !! "id" = Some i ->
  valid_id sch i = false ->
  run_mem sch (getEtudiantById req) docs
  = (docs, Done (failure_with 500 "Erreur serveur" id_cast_error))
  /\ run_mem sch (deleteEtudiant req) docs
     = (docs, Done (failure_with 500 "Erreur serveur" id_cast_error))
  /\ run_mem sch (updateEtudiant req) docs
     = (docs, Done (failure_with 400 "Erreur de mise à jour" id_cast_error)).
Proof.
  intros Hid Hvalid. repeat split.
  - unfold run_mem, getEtudiantById. cbn. rewrite Hid. cbn.
    rewrite Hvalid. reflexivity.
  - unfold run_mem, deleteEtudiant. cbn. rewrite Hid. cbn.
    rewrite Hvalid. reflexivity.
  - unfold run_mem, updateEtudiant. cbn. rewrite Hid. cbn.
    rewrite Hvalid. reflexivity.
Qed.

Lemma malformed_identifier_answers_witness :
  run_mem sample_schema
    (updateEtudiant (get_request [("id", "42")] [])) sample_docs
  = (sample_docs,
     Done (failure_with 400 "Erreur de mise à jour" id_cast_error)).
Proof.
  apply (malformed_identifier_answers sample_schema sample_docs
           (get_request [("id", "42")] []) "42");
    vm_compute; reflexivity.
Defined.

(** ** After an update *)

Lemma mem_update_found {eng : RegExp.Engine}
    (sch : schema) (docs : list etudiant)
    (req : request) (i : string) (d : etudiant) :
  params req !! "id" = Some i ->
  valid_id sch i = true ->
  validate_update sch (body req) = None ->
  List.find (has_id i) docs = Some d ->
  run_mem sch (updateEtudiant req) docs
  = (replace_by_id i (apply_update (body req) d) docs,
     Done (message_with 200 "Étudiant mis à jour avec succès"
             (apply_update (body req) d))).
Proof.
  intros Hid Hvalid Hpass Hfind.
  unfold run_mem, updateEtudiant. cbn. rewrite Hid. cbn.
  rewrite Hvalid. cbn. rewrite Hpass, Hfind. reflexivity.
Qed.

(** X20: on the in-memory store, when [updateEtudiant] answers 200 it
    answers with the record as it is after the update, not before, and
    [getEtudiantById] on the same identifier then answers 200 with that
    very record; the identifier itself is not changed by the update. *)
Theorem updated_is_found {eng : RegExp.Engine}
    (sch : schema) (docs : list etudiant)
    (req : request) (i : string) (d : etudiant) :
  params req !! "id" = Some i ->
  valid_id sch i = true ->
  validate_update sch (body req) = None ->
  List.find (has_id i) docs = Some d ->
  exists (docs' : list etudiant) (d' : etudiant),
    run_mem sch (updateEtudiant req) docs
    = (docs', Done (message_with 200 "Étudiant mis à jour avec succès" d'))
    /\ d' = apply_update (body req) d
    /\ _id d' = i
    /\ run_mem sch (getEtudiantById req) docs'
       = (docs',
          Done (Http.mkResponse 200 (with_data (Http.One d') (reply true)))).
Proof.
  intros Hid Hvalid Hpass Hfind.
  assert (Hd' : has_id i (apply_update (body req) d) = true).
  { rewrite has_id_apply_update. now destruct (List.find_some _ _ Hfind). }
  exists (replace_by_id i (apply_update (body req) d) docs),
         (apply_update (body req) d).
  split; [now apply mem_update_found |]. split; [reflexivity |].
  split; [now apply has_id_eq |].
  rewrite (mem_getById sch _ req i Hid Hvalid).
  rewrite find_replace_by_id; [reflexivity | exact Hd' | now rewrite Hfind].
Qed.

Lemma updated_is_found_witness :
  let req := mkRequest {[ "id" := sample_id 2 ]} ∅
               (mkFields None None None (Some "Math") None None (Some true)) in
  exists (docs' : list etudiant) (d' : etudiant),
    run_mem sample_schema (updateEtudiant req) sample_docs
    = (docs', Done (message_with 200 "Étudiant mis à jour avec succès" d'))
    /\ d' = mkEtudiant (sample_id 2) "Marechal" "Marie" "marie@x.com" "Math"
                       (inject_Z 2020) (inject_Z 12) true
    /\ _id d' = sample_id 2
    /\ run_mem sample_schema (getEtudiantById req) docs'
       = (docs',
          Done (Http.mkResponse 200 (with_data (Http.One d') (reply true)))).
Proof.
  apply (updated_is_found sample_schema sample_docs
           (mkRequest {[ "id" := sample_id 2 ]} ∅
              (mkFields None None None (Some "Math") None None (Some true)))
           (sample_id 2) marechal);
    vm_compute; reflexivity.
Defined.

(** ** The case of the query string *)

Lemma prefix_ci_fold (cs1 cs2 s : list ascii) :
  map RegExp.canonicalize cs1 = map RegExp.canonicalize cs2 ->
  prefix_ci cs1 s = prefix_ci cs2 s.
Proof.
  intros Hfold. apply Bool.eq_iff_eq_true.
  now rewrite !prefix_ci_spec, Hfold.
Qed.

Lemma occurs_ci_fold (cs1 cs2 s : list ascii) :
  map RegExp.canonicalize cs1 = map RegExp.canonicalize cs2 ->
  occurs_ci cs1 s = occurs_ci cs2 s.
Proof.
  intros Hfold. apply Bool.eq_iff_eq_true.
  now rewrite !occurs_ci_spec, Hfold.
Qed.

(** X21: the search does not depend on the case of [q]: on the in-memory
    store, two non-empty query strings without regex metacharacters that
    differ by case only (equal once case-folded) are answered with the
    same records in the same order. *)
Theorem search_ignores_case_of_q {eng : RegExp.Engine}
    (sch : schema) (docs : list etudiant)
    (req1 req2 : request) (q1 q2 : string) :
  query req1 !! "q" = Some q1 -> q1 <> "" -> plain q1 = true ->
  query req2 !! "q" = Some q2 -> q2 <> "" -> plain q2 = true ->
  fold_case q1 = fold_case q2 ->
  exists found : list etudiant,
    run_mem sch (searchEtudiants req1) docs
    = (docs, Done (search_found q1 found))
    /\ run_mem sch (searchEtudiants req2) docs
       = (docs, Done (search_found q2 found)).
Proof.
  intros Hq1 Hne1 Hplain1 Hq2 Hne2 Hplain2 Hfold.
  eexists. split.
  - apply (search_built sch docs req1 q1 _ Hq1 Hne1
             (construct_plain q1 Hplain1)).
  - rewrite (search_built sch docs req2 q2 _ Hq2 Hne2
               (construct_plain q2 Hplain2)).
    f_equal. f_equal. f_equal. apply filter_ext_eq. intros d.
    rewrite !test_literal.
    now rewrite !(occurs_ci_fold _ _ _ Hfold).
Qed.

Lemma search_ignores_case_of_q_witness :
  exists found : list etudiant,
    run_mem sample_schema (searchEtudiants (get_request [] [("q", "mar")]))
            sample_docs
    = (sample_docs, Done (search_found "mar" found))
    /\ run_mem sample_schema
         (searchEtudiants (get_request [] [("q", "MaR")])) sample_docs
       = (sample_docs, Done (search_found "MaR" found)).
Proof.
  apply (search_ignores_case_of_q sample_schema sample_docs
           (get_request [] [("q", "mar")]) (get_request [] [("q", "MaR")])
           "mar" "MaR");
    first [discriminate | vm_compute; reflexivity].
Defined.

(** ** Delete, then reactivate *)




(** ** Search by name and the advanced search on [nom] *)







(** ** What the answers echo *)

(** X24: whatever the store, an answer of status 200 echoes the input of
    the request as it was received: [getEtudiantsByFiliere] the route
    parameter [filiere], [searchEtudiants] the string [q],
    [advancedSearch] the whole query object, recognised inputs or not, and
    [getEtudiantsSorted] both [sortBy] and [order], also when they had no
    effect on the order. *)
Theorem answers_echo_the_input {eng : RegExp.Engine}
    (db : Type) (store : Store db)
    (req : request) (d d' : db) (res : response) :
  Http.status res = 200%Z ->
  (run (getEtudiantsByFiliere req) d = (d', Done res) ->
   Http.filiere (Http.json res) = params req !! "filiere")
  /\ (run (searchEtudiants req) d = (d', Done res) ->
      Http.query_echo (Http.json res) = query req !! "q")
  /\ (run (advancedSearch req) d = (d', Done res) ->
      Http.filters (Http.json res) = Some (query req))
  /\ (run (getEtudiantsSorted req) d = (d', Done res) ->
      Http.sortBy (Http.json res) = query req !! "sortBy"
      /\ Http.order (Http.json res) = query req !! "order").
Proof.
  intros Hstatus.
  assert (Herr : forall (P : response -> Prop) (e : error),
             leaves (fun r => Http.status r = 200%Z -> P r)
                    (server_error e)).
  { intros P e. cbn. discriminate. }
  assert (Hlist : forall (P : response -> Prop) f sort finish,
             (forall l, P (Http.mkResponse 200 (finish l))) ->
             leaves (fun r => Http.status r = 200%Z -> P r)
               (try_catch (etudiants ← await (Find f sort);
                           respond 200 (finish etudiants))
                          server_error)).
  { intros P f sort finish Hfinish. cbn.
    intros [l | e]; cbn; [auto | discriminate]. }
  split; [| split; [| split]]; intros Hrun.
  - refine (leaves_run
              (fun r => Http.status r = 200%Z ->
                        Http.filiere (Http.json r) = params req !! "filiere")
              _ _ d d' res Hrun Hstatus).
    apply (Hlist (fun r => Http.filiere (Http.json r)
                           = params req !! "filiere")).
    reflexivity.
  - refine (leaves_run
              (fun r => Http.status r = 200%Z ->
                        Http.query_echo (Http.json r) = query req !! "q")
              _ _ d d' res Hrun Hstatus).
    destruct (search_cases req) as [H | [[re H] | [e H]]]; rewrite H.
    + cbn. discriminate.
    + apply (Hlist (fun r => Http.query_echo (Http.json r)
                             = query req !! "q")).
      reflexivity.
    + apply Herr.
  - refine (leaves_run
              (fun r => Http.status r = 200%Z ->
                        Http.filters (Http.json r) = Some (query req))
              _ _ d d' res Hrun Hstatus).
    destruct (advancedSearch_cases req) as [[f H] | [e H]]; rewrite H.
    + apply (Hlist (fun r => Http.filters (Http.json r)
                             = Some (query req))).
      reflexivity.
    + apply Herr.
  - refine (leaves_run
              (fun r => Http.status r = 200%Z ->
                        Http.sortBy (Http.json r) = query req !! "sortBy"
                        /\ Http.order (Http.json r) = query req !! "order")
              _ _ d d' res Hrun Hstatus).
    apply (Hlist (fun r => Http.sortBy (Http.json r) = query req !! "sortBy"
                           /\ Http.order (Http.json r)
                              = query req !! "order")).
    intros l. split; reflexivity.
Qed.

Lemma answers_echo_the_input_witness :
  Http.filters
    (Http.json (advanced_found (list_to_map [("page", "2")])
                  [dupont; martin]))
  = Some (list_to_map [("page", "2")]).
Proof.
  apply (proj1 (proj2 (proj2
           (answers_echo_the_input (list etudiant) (mem_exec sample_schema)
              (get_request [] [("page", "2")]) sample_docs sample_docs
              (advanced_found (list_to_map [("page", "2")])
                 [dupont; martin])
              eq_refl)))).
  vm_compute. reflexivity.
Defined.
